(** * pdf_render native layer: the sobar C interface, the Android direct-buffer
    helpers and the Windows plugin, embedded in Rocq.

    Sources embedded here:
    - [src/windows/sobar/include/sobar.h]        (enums and entry-point signatures)
    - [src/android/c++/directBufferAndroid.cpp]  (malloc / free / newDirectBuffer)
    - [src/windows/pdf_render_plugin.cpp]        (plugin constructor, destructor,
                                                  method handler)

    The bodies of the [sbr_*] entry points are not part of these sources; where a
    property needs them, module [Sobar] gives a model written from the
    specification, and every such definition says so. *)

From Stdlib Require Import ZArith Lia List Bool.
From Stdlib Require Import Strings.String Strings.Byte.
From Stdlib Require Import Sorting.Permutation.
From stdpp Require Import base option list gmap.

Open Scope Z_scope.

(* ===================================================================== *)
(** * Part I: definitions *)
(* ===================================================================== *)

(** ** Machine integers *)

(** Conversion of a mathematical integer to an unsigned [w]-bit C integer. *)
Definition wrap_unsigned (w : Z) (x : Z) : Z := x mod 2 ^ w.

(** Conversion to a signed two's-complement [w]-bit C integer. *)
Definition wrap_signed (w : Z) (x : Z) : Z :=
  let u := x mod 2 ^ w in
  if u <? 2 ^ (w - 1) then u else u - 2 ^ w.

(** [jlong] is a signed 64-bit integer; C [int] is 32 bits on every target of
    the plugin. *)
Definition to_jlong (x : Z) : Z := wrap_signed 64 x.
Definition to_int (x : Z) : Z := wrap_signed 32 x.
Definition to_uint32 (x : Z) : Z := wrap_unsigned 32 x.
Definition INT_MAX : Z := 2 ^ 31 - 1.

(** ** sobar.h: enumerations *)

Module PixelFormat.

Inductive sbr_PixelFormat : Type :=
| sbr_PixelFormat_invalid
| sbr_PixelFormat_gray
| sbr_PixelFormat_bgr
| sbr_PixelFormat_bgra
| sbr_PixelFormat_rgb
| sbr_PixelFormat_rgba.

(** The first enumerator is 0 and each following one is its predecessor + 1. *)
Definition value (f : sbr_PixelFormat) : Z :=
  match f with
  | sbr_PixelFormat_invalid => 0
  | sbr_PixelFormat_gray => 1
  | sbr_PixelFormat_bgr => 2
  | sbr_PixelFormat_bgra => 3
  | sbr_PixelFormat_rgb => 4
  | sbr_PixelFormat_rgba => 5
  end.

Definition all : list sbr_PixelFormat :=
  [sbr_PixelFormat_invalid; sbr_PixelFormat_gray; sbr_PixelFormat_bgr;
   sbr_PixelFormat_bgra; sbr_PixelFormat_rgb; sbr_PixelFormat_rgba].

(** Reading an ABI integer back as an enumerator (what
    [sbr_PdfBitmapGetPixelFormat] returns, what [sbr_PdfBitmapCreate] takes). *)
Definition of_value (z : Z) : option sbr_PixelFormat :=
  if z =? 0 then Some sbr_PixelFormat_invalid
  else if z =? 1 then Some sbr_PixelFormat_gray
  else if z =? 2 then Some sbr_PixelFormat_bgr
  else if z =? 3 then Some sbr_PixelFormat_bgra
  else if z =? 4 then Some sbr_PixelFormat_rgb
  else if z =? 5 then Some sbr_PixelFormat_rgba
  else None.

End PixelFormat.

Module Rotation.

Inductive sbr_RotateClockwise : Type :=
| sbr_RotateClockwise_0     (* normal *)
| sbr_RotateClockwise_90    (* 90 degree clockwise *)
| sbr_RotateClockwise_180   (* 180 degree *)
| sbr_RotateClockwise_270.  (* 270 degree clockwise *)

(** The integer each enumerator is declared with. *)
Definition value (r : sbr_RotateClockwise) : Z :=
  match r with
  | sbr_RotateClockwise_0 => 0
  | sbr_RotateClockwise_90 => 1
  | sbr_RotateClockwise_180 => 2
  | sbr_RotateClockwise_270 => 3
  end.


Definition all : list sbr_RotateClockwise :=
  [sbr_RotateClockwise_0; sbr_RotateClockwise_90;
   sbr_RotateClockwise_180; sbr_RotateClockwise_270].

(** Reading an ABI integer back as an enumerator; an integer that no enumerator
    is declared with has no reading. *)
Definition of_value (z : Z) : option sbr_RotateClockwise :=
  if z =? 0 then Some sbr_RotateClockwise_0
  else if z =? 1 then Some sbr_RotateClockwise_90
  else if z =? 2 then Some sbr_RotateClockwise_180
  else if z =? 3 then Some sbr_RotateClockwise_270
  else None.

End Rotation.

Module RenderFlags.

(** Page rendering flags. They can be combined with bit-wise OR. *)
Inductive sbr_RenderFlags : Type :=
| sbr_rfAnnot                  (* annotations are to be rendered *)
| sbr_rfTextLCD                (* text rendering optimized for LCD display *)
| sbr_rfNoNativeTextRendering  (* don't use the native text output *)
| sbr_rfGrayscale              (* grayscale output *)
| sbr_rfDebug                  (* get some debug info *)
| sbr_rfNoCatch                (* don't catch exceptions *)
| sbr_rfLimitedCache           (* limit image cache size *)
| sbr_rfHalfTone               (* always use halftone for image stretching *)
| sbr_rfForPrinting            (* render for printing *)
| sbr_rfNoSmoothText           (* disable anti-aliasing on text *)
| sbr_rfNoSmoothImage          (* disable anti-aliasing on images *)
| sbr_rfNoSmoothPath           (* disable anti-aliasing on paths *)
| sbr_rfReverseByteOrder       (* reverse byte order, bitmap rendering only *)
| sbr_rfNoWhiteFill.           (* don't white-fill before rendering *)

Definition value (f : sbr_RenderFlags) : Z :=
  match f with
  | sbr_rfAnnot => 1
  | sbr_rfTextLCD => 2
  | sbr_rfNoNativeTextRendering => 4
  | sbr_rfGrayscale => 8
  | sbr_rfDebug => 0x80
  | sbr_rfNoCatch => 0x100
  | sbr_rfLimitedCache => 0x200
  | sbr_rfHalfTone => 0x400
  | sbr_rfForPrinting => 0x800
  | sbr_rfNoSmoothText => 0x1000
  | sbr_rfNoSmoothImage => 0x2000
  | sbr_rfNoSmoothPath => 0x4000
  | sbr_rfReverseByteOrder => 0x10
  | sbr_rfNoWhiteFill => 0x20
  end.

Definition all : list sbr_RenderFlags :=
  [sbr_rfAnnot; sbr_rfTextLCD; sbr_rfNoNativeTextRendering; sbr_rfGrayscale;
   sbr_rfDebug; sbr_rfNoCatch; sbr_rfLimitedCache; sbr_rfHalfTone;
   sbr_rfForPrinting; sbr_rfNoSmoothText; sbr_rfNoSmoothImage;
   sbr_rfNoSmoothPath; sbr_rfReverseByteOrder; sbr_rfNoWhiteFill].

(** Position of the flag's bit. *)
Definition bit (f : sbr_RenderFlags) : Z := Z.log2 (value f).

(** [a | b | ...]: the mask a caller builds from the flags it wants. *)
Definition combine (fs : list sbr_RenderFlags) : Z :=
  fold_right (fun f acc => Z.lor (value f) acc) 0 fs.

(** [(flags & f) != 0] *)
Definition has_flag (mask : Z) (f : sbr_RenderFlags) : bool :=
  negb (Z.land mask (value f) =? 0).

(** What the comments of the enumeration say a mask asks for: the [NoSmooth*]
    flags are "set to disable anti-aliasing", [sbr_rfNoWhiteFill] is "don't
    white-fill before rendering", [sbr_rfNoCatch] is "set if you don't want to
    catch exceptions". *)
Definition smooth_text (mask : Z) : bool := negb (has_flag mask sbr_rfNoSmoothText).
Definition smooth_image (mask : Z) : bool := negb (has_flag mask sbr_rfNoSmoothImage).
Definition smooth_path (mask : Z) : bool := negb (has_flag mask sbr_rfNoSmoothPath).
Definition white_fill (mask : Z) : bool := negb (has_flag mask sbr_rfNoWhiteFill).
Definition catch_exceptions (mask : Z) : bool := negb (has_flag mask sbr_rfNoCatch).

(** The flags a mask has set, in the order of the enumeration. *)
Definition decode (mask : Z) : list sbr_RenderFlags :=
  List.filter (has_flag mask) all.

End RenderFlags.

(** ** directBufferAndroid.cpp *)

Module DirectBuffer.

(** Native memory is a finite map from the addresses the process may access to
    the byte stored there.  The C library and the JNI runtime are the platform
    the three helpers run on; they are not code of this repository, so the
    helpers take them as a parameter. *)
Record Platform : Type := {
  (** width in bits of [size_t] and of a pointer *)
  ptr_bits : Z;
  (** [malloc(n)]: the address of the new block (0 when the request cannot be
      satisfied) and the memory afterwards *)
  malloc : gmap Z byte -> Z -> Z * gmap Z byte;
  (** [free(p)] *)
  free : gmap Z byte -> Z -> gmap Z byte
}.

(** [static_cast<size_t>(x)] *)
Definition to_size_t (P : Platform) (x : Z) : Z := wrap_unsigned (ptr_bits P) x.

(** A direct [java.nio.ByteBuffer]: it stores where the block starts and how
    long it is, and no bytes of its own. *)
Record DirectByteBuffer : Type := {
  address : Z;
  capacity : Z
}.

(** JNI [NewDirectByteBuffer(address, capacity)]: a direct buffer referring to
    the block of memory starting at [address] and extending [capacity] bytes.
    No buffer is made when [capacity] is negative or greater than
    [Integer.MAX_VALUE], or when [address] is null and [capacity] is not 0. *)
Definition NewDirectByteBuffer (addr cap : Z) : option DirectByteBuffer :=
  if (0 <=? cap) && (cap <=? INT_MAX) && negb ((addr =? 0) && negb (cap =? 0))
  then Some {| address := addr; capacity := cap |}
  else None.

(** [return env->NewDirectByteBuffer(reinterpret_cast<void *>(static_cast<size_t>(ptr)), size);] *)
Definition Java_jp_espresso3389_pdf_1render_ByteBufferHelper_newDirectBuffer
    (P : Platform) (ptr size : Z) : option DirectByteBuffer :=
  NewDirectByteBuffer (to_size_t P ptr) size.

(** [return static_cast<jlong>(reinterpret_cast<size_t>(malloc(size)));]
    The [jlong] argument is converted to [size_t] at the call of [malloc]. *)
Definition Java_jp_espresso3389_pdf_1render_ByteBufferHelper_malloc
    (P : Platform) (m : gmap Z byte) (size : Z) : Z * gmap Z byte :=
  let '(p, m') := malloc P m (to_size_t P size) in
  (to_jlong p, m').

(** [free(reinterpret_cast<void *>(static_cast<size_t>(ptr)));] *)
Definition Java_jp_espresso3389_pdf_1render_ByteBufferHelper_free
    (P : Platform) (m : gmap Z byte) (ptr : Z) : gmap Z byte :=
  free P m (to_size_t P ptr).

(** Host-side access through the view ([ByteBuffer.get(int)] and
    [ByteBuffer.put(int, byte)]): the index is checked against the capacity and
    the access goes to native memory at [address + index]; an access outside
    the memory of the process faults. *)
Definition buffer_get (b : DirectByteBuffer) (m : gmap Z byte) (i : Z) : option byte :=
  if (0 <=? i) && (i <? capacity b) then m !! (address b + i) else None.

Definition buffer_put (b : DirectByteBuffer) (i : Z) (x : byte) (m : gmap Z byte)
    : option (gmap Z byte) :=
  if (0 <=? i) && (i <? capacity b) then
    match m !! (address b + i) with
    | Some _ => Some (<[address b + i := x]> m)
    | None => None
    end
  else None.

(** Writing and reading a run of bytes from index [i] on. *)
Fixpoint buffer_put_bytes (b : DirectByteBuffer) (i : Z) (xs : list byte)
    (m : gmap Z byte) : option (gmap Z byte) :=
  match xs with
  | [] => Some m
  | x :: xs' =>
      match buffer_put b i x m with
      | Some m' => buffer_put_bytes b (i + 1) xs' m'
      | None => None
      end
  end.

Fixpoint buffer_get_bytes (b : DirectByteBuffer) (i : Z) (n : nat)
    (m : gmap Z byte) : option (list byte) :=
  match n with
  | O => Some []
  | S n' =>
      match buffer_get b m i, buffer_get_bytes b (i + 1) n' m with
      | Some x, Some xs => Some (x :: xs)
      | _, _ => None
      end
  end.

(** Reading native memory directly, by address (what the rendering engine does
    with the same block). *)
Fixpoint native_read (m : gmap Z byte) (a : Z) (n : nat) : option (list byte) :=
  match n with
  | O => Some []
  | S n' =>
      match m !! a, native_read m (a + 1) n' with
      | Some x, Some xs => Some (x :: xs)
      | _, _ => None
      end
  end.

(** What the helpers rely on from the platform: pointers are 32 or 64 bits
    wide, and a block that [malloc] returns as non-null lies inside the address
    space and every byte of it may be accessed. *)
Definition platform_ok (P : Platform) : Prop :=
  (ptr_bits P = 32 \/ ptr_bits P = 64) /\
  forall (m : gmap Z byte) (n p : Z) (m' : gmap Z byte),
    malloc P m n = (p, m') ->
    0 <= p < 2 ^ ptr_bits P /\
    (p <> 0 ->
     p + n <= 2 ^ ptr_bits P /\
     forall a : Z, p <= a < p + n -> is_Some (m' !! a)).

(** A small allocator to run the helpers on: a 64-bit platform whose [malloc]
    places a zero-filled block above everything mapped so far and refuses
    requests above 64 KiB or past the end of the address space. *)
Definition heap_top (m : gmap Z byte) : Z :=
  map_fold (fun (a : Z) (_ : byte) (acc : Z) => Z.max acc (a + 1)) 4096 m.

Fixpoint map_block (a : Z) (n : nat) (m : gmap Z byte) : gmap Z byte :=
  match n with
  | O => m
  | S n' => <[a := x00]> (map_block (a + 1) n' m)
  end.

Definition demo_malloc (m : gmap Z byte) (n : Z) : Z * gmap Z byte :=
  if (0 <=? n) && (n <=? 65536) && (heap_top m + n <? 2 ^ 64)
  then (heap_top m, map_block (heap_top m) (Z.to_nat n) m)
  else (0, m).

Definition demo_platform : Platform :=
  {| ptr_bits := 64;
     malloc := demo_malloc;
     free := fun m _ => m |}.

(** Four bytes allocated in an empty memory, the view over them, and a pattern
    to write. *)
Definition demo_memory : gmap Z byte :=
  snd (Java_jp_espresso3389_pdf_1render_ByteBufferHelper_malloc demo_platform ∅ 4).

Definition demo_view : DirectByteBuffer := {| address := 4096; capacity := 4 |}.

Definition demo_pattern : list byte := [x25; x50; x44; x46].

(** The same allocator on a 32-bit platform; its [free] unmaps the first byte
    of the block. *)
Definition demo_malloc32 (m : gmap Z byte) (n : Z) : Z * gmap Z byte :=
  if (0 <=? n) && (n <=? 65536) && (heap_top m + n <? 2 ^ 32)
  then (heap_top m, map_block (heap_top m) (Z.to_nat n) m)
  else (0, m).

Definition demo_platform32 : Platform :=
  {| ptr_bits := 32;
     malloc := demo_malloc32;
     free := fun m p => delete p m |}.

(** Four bytes allocated on the 32-bit platform, and that memory after the
    byte "A" was put at index 1 of a view over the block. *)
Definition demo_memory32 : gmap Z byte :=
  snd (Java_jp_espresso3389_pdf_1render_ByteBufferHelper_malloc demo_platform32 ∅ 4).

Definition demo_memory32_written : gmap Z byte := <[4097 := x41]> demo_memory32.

End DirectBuffer.

(** ** pdf_render_plugin.cpp *)

Module Plugin.

(** [flutter::EncodableValue], as far as the plugin is concerned. *)
Inductive EncodableValue : Type :=
| EncNull
| EncBool (b : bool)
| EncInt (z : Z)
| EncString (s : string).

(** [flutter::MethodCall<EncodableValue>] *)
Record MethodCall : Type := {
  method_name : string;
  arguments : EncodableValue
}.

(** What the handler does with its [flutter::MethodResult]. *)
Inductive MethodResponse : Type :=
| Success (v : EncodableValue)
| Error (code message : string)
| NotImplemented.

(** The calls into the sobar library, as the library sees them. *)
Inductive SbrCall : Type :=
| CallInitialize
| CallFinalize
| CallDocumentOpenFile (returned : Z)
| CallDocumentClose (doc : Z).

(** The sobar library is linked in as a binary; the plugin sees the three entry
    points it calls.  [sbr_PdfDocumentOpenFile] is called without arguments in
    the plugin, so its result can depend on the state of the library only. *)
Record Library : Type := {
  lib_state : Type;
  sbr_Initialize : lib_state -> lib_state;
  sbr_Finalize : lib_state -> lib_state;
  sbr_PdfDocumentOpenFile : lib_state -> Z * lib_state
}.

(** The process as the plugin acts on it: the state of the library and the log
    of the calls made into it so far. *)
Record Process (L : Library) : Type := {
  library : lib_state L;
  calls : list SbrCall
}.
Arguments library {L} _.
Arguments calls {L} _.

Section PluginCode.
Context {L : Library}.

(** [PdfRenderPlugin::PdfRenderPlugin() { sbr_Initialize(); }] *)
Definition PdfRenderPlugin_construct (w : Process L) : Process L :=
  {| library := sbr_Initialize L (library w);
     calls := calls w ++ [CallInitialize] |}.

(** [PdfRenderPlugin::~PdfRenderPlugin() { sbr_Finalize(); }] *)
Definition PdfRenderPlugin_destroy (w : Process L) : Process L :=
  {| library := sbr_Finalize L (library w);
     calls := calls w ++ [CallFinalize] |}.

(** [PdfRenderPlugin::HandleMethodCall]; [compare(...) == 0] is string
    equality, and [reinterpret_cast<uint32_t>] keeps the low 32 bits of the
    pointer. *)
Definition HandleMethodCall (method_call : MethodCall) (w : Process L)
    : MethodResponse * Process L :=
  if String.eqb (method_name method_call) "file" then
    let '(doc, lib') := sbr_PdfDocumentOpenFile L (library w) in
    (Success (EncInt (to_uint32 doc)),
     {| library := lib'; calls := calls w ++ [CallDocumentOpenFile doc] |})
  else if String.eqb (method_name method_call) "asset" then
    (Success (EncInt 0), w)
  else if String.eqb (method_name method_call) "data" then
    (Success (EncInt 0), w)
  else if String.eqb (method_name method_call) "close" then
    (Success (EncInt 0), w)
  else
    (NotImplemented, w).

(** The method calls a plugin object receives, in order. *)
Fixpoint handle_all (requests : list MethodCall) (w : Process L)
    : list MethodResponse * Process L :=
  match requests with
  | [] => ([], w)
  | r :: rest =>
      let '(resp, w1) := HandleMethodCall r w in
      let '(resps, w2) := handle_all rest w1 in
      (resp :: resps, w2)
  end.

(** The life of one plugin object: [RegisterWithRegistrar] constructs it and
    hands it to the registrar, the channel delivers method calls to it, and the
    registrar destroys it. *)
Definition plugin_lifetime (requests : list MethodCall) (w : Process L)
    : list MethodResponse * Process L :=
  let '(resps, w1) := handle_all requests (PdfRenderPlugin_construct w) in
  (resps, PdfRenderPlugin_destroy w1).

End PluginCode.

(** [flutter::PluginRegistrarWindows] as the plugin uses it: the method-call
    handler its messenger has for each channel name, and the plugin objects it
    owns.  A plugin object has no fields, so it is known by its number. *)
Record Registrar : Type := {
  channel_handler : string -> option nat;
  owned_plugins : list nat
}.

Definition empty_registrar : Registrar :=
  {| channel_handler := fun _ => None; owned_plugins := [] |}.

(** What the host does with a registrar: it registers the plugin, or a message
    for a channel arrives from Dart. *)
Inductive HostEvent : Type :=
| HostRegister
| HostMessage (channel : string) (call : MethodCall).

Section RegistrarCode.
Context {L : Library}.

(** [PdfRenderPlugin::RegisterWithRegistrar]: the channel "pdf_render" is made,
    the plugin is constructed, the channel's handler is set to a closure that
    forwards to [HandleMethodCall] of that plugin, and the plugin is handed to
    the registrar. *)
Definition RegisterWithRegistrar (registrar : Registrar) (w : Process L)
    : Registrar * Process L :=
  let w1 := PdfRenderPlugin_construct w in
  let plugin := length (owned_plugins registrar) in
  ({| channel_handler := fun name =>
        if String.eqb name "pdf_render" then Some plugin
        else channel_handler registrar name;
      owned_plugins := owned_plugins registrar ++ [plugin] |},
   w1).

(** [PdfRenderPluginRegisterWithRegistrar]: the C entry point looks up the
    registrar object for the reference it is given and registers with it. *)
Definition PdfRenderPluginRegisterWithRegistrar (registrar : Registrar)
    (w : Process L) : Registrar * Process L :=
  RegisterWithRegistrar registrar w.

(** The messenger delivers a method call to the handler of its channel; a call
    for a channel without a handler gets no response from a plugin. *)
Definition deliver (channel : string) (call : MethodCall) (registrar : Registrar)
    (w : Process L) : option MethodResponse * Process L :=
  match channel_handler registrar channel with
  | Some _ => let '(resp, w') := HandleMethodCall call w in (Some resp, w')
  | None => (None, w)
  end.

(** The registrar destroys the plugins it owns when it goes away. *)
Definition destroy_registrar (registrar : Registrar) (w : Process L) : Process L :=
  fold_left (fun w' _ => PdfRenderPlugin_destroy w') (owned_plugins registrar) w.

Fixpoint host_session (events : list HostEvent) (registrar : Registrar)
    (w : Process L) : list (option MethodResponse) * Registrar * Process L :=
  match events with
  | [] => ([], registrar, w)
  | HostRegister :: rest =>
      let '(registrar1, w1) := PdfRenderPluginRegisterWithRegistrar registrar w in
      host_session rest registrar1 w1
  | HostMessage channel call :: rest =>
      let '(resp, w1) := deliver channel call registrar w in
      let '(resps, registrar2, w2) := host_session rest registrar w1 in
      (resp :: resps, registrar2, w2)
  end.

(** The life of a registrar: it starts without handlers and plugins, the host
    events happen, and it is destroyed. *)
Definition registrar_lifetime (events : list HostEvent) (w : Process L)
    : list (option MethodResponse) * Process L :=
  let '(resps, registrar, w1) := host_session events empty_registrar w in
  (resps, destroy_registrar registrar w1).

End RegistrarCode.

Definition is_register (e : HostEvent) : bool :=
  match e with HostRegister => true | _ => false end.

(** [method_call.method_name().compare("file") == 0] *)
Definition is_file (r : MethodCall) : bool := String.eqb (method_name r) "file".

(** No document is opened before the library is initialized: the first call
    of the log that is an open or an initialize is an initialize. *)
Fixpoint no_open_before_initialize (log : list SbrCall) : bool :=
  match log with
  | [] => true
  | CallInitialize :: _ => true
  | CallDocumentOpenFile _ :: _ => false
  | _ :: rest => no_open_before_initialize rest
  end.

(** Reading the log. *)
Definition is_initialize (c : SbrCall) : bool :=
  match c with CallInitialize => true | _ => false end.
Definition is_finalize (c : SbrCall) : bool :=
  match c with CallFinalize => true | _ => false end.
Definition is_open_file (c : SbrCall) : bool :=
  match c with CallDocumentOpenFile _ => true | _ => false end.

Definition count_calls (p : SbrCall -> bool) (log : list SbrCall) : nat :=
  length (List.filter p log).

(** The document handles that are open after the calls of [log]: a non-null
    handle returned by an open, until a close names it. *)
Fixpoint open_handles (log : list SbrCall) (acc : list Z) : list Z :=
  match log with
  | [] => acc
  | CallDocumentOpenFile h :: rest =>
      open_handles rest (if h =? 0 then acc else acc ++ [h])
  | CallDocumentClose h :: rest =>
      open_handles rest (List.filter (fun x => negb (x =? h)) acc)
  | _ :: rest => open_handles rest acc
  end.

(** The handles still open at the moment [sbr_Finalize] is called (the log
    ends with that call). *)
Definition open_at_finalize (log : list SbrCall) : list Z :=
  match rev log with
  | CallFinalize :: before => open_handles (rev before) []
  | _ => open_handles log []
  end.

(** A library to run the plugin on: it counts the documents it has opened and
    returns a new non-null pointer for each. *)
Definition demo_library : Library :=
  {| lib_state := Z;
     sbr_Initialize := fun s => s;
     sbr_Finalize := fun s => s;
     sbr_PdfDocumentOpenFile := fun s => (4096 + 16 * s, s + 1) |}.

Definition file_call : MethodCall :=
  {| method_name := "file"; arguments := EncNull |}.

(** A process in which nothing has called into the library yet. *)
Definition fresh_process : Process demo_library :=
  @Build_Process demo_library 0 [].

End Plugin.

(** ** The handle registry behind sobar.h *)

Module Sobar.
Import Rotation PixelFormat.

(** Modelled from the spec: the per-handle state machine of the Handle
    Registry, [Uninitialized -> Open -> Closed]; a handle that was never opened
    is one the tables below have no entry for. *)
Inductive HandleState : Type := Open | Closed.

(** Modelled from the spec: the error taxonomy. *)
Inductive SbrError : Type :=
| OpenError
| InvalidHandleError
| DoubleCloseError
| AllocationError
| RenderError.

(** Modelled from the spec: the result of a registry operation, a value or one
    of the errors above (the entry points of sobar.h return bare handles and
    integers; their bodies are not in the sources). *)
Inductive Outcome (A : Type) : Type :=
| Done (a : A)
| Failed (e : SbrError).
Arguments Done {A} _.
Arguments Failed {A} _.

(** A release callback together with the context it is to be called with
    ([sbr_ContextReleaseCallback], [sbr_PdfBitmapOnReleaseCallback]: both are
    function pointers taking the context and returning nothing); the callback is
    known by its address. *)
Record ReleaseHook : Type := {
  hook_callback : Z;
  hook_context : Z
}.

(** The arguments of [sbr_PdfDocumentOpenCustom]: the host's context, the total
    size, the read callback (the bytes it provides for an offset and a length)
    and the release callback. *)
Record CustomSource : Type := {
  src_context : Z;
  src_size : Z;
  src_read : Z -> Z -> list byte;
  src_release : Z
}.

Definition source_hook (src : CustomSource) : ReleaseHook :=
  {| hook_callback := src_release src; hook_context := src_context src |}.

(** Modelled from the spec: one page of a decoded document, its rotation
    metadata and its content (the document model of the engine is not in the
    sources). *)
Record PageModel : Type := {
  page_rotation : sbr_RotateClockwise;
  page_content : list byte
}.

(** Modelled from the spec: a Bitmap's pixel memory is either allocated and
    owned internally, or supplied by the caller together with an optional
    release callback ([OwnedBuffer] vs [BorrowedBuffer{releaseHook}]). *)
Inductive PixelStorage : Type :=
| OwnedBuffer
| BorrowedBuffer (scan0 : Z) (releaseHook : option ReleaseHook).

(** Modelled from the spec: the entries of the three handle tables (the structs
    behind [sbr_PdfDocument], [sbr_PdfPage] and [sbr_PdfBitmap] are declared in
    sobar.h and defined nowhere in the sources). *)
Record Document : Type := {
  doc_state : HandleState;
  doc_pages : list PageModel;
  (** the custom source the document reads from, if it has one *)
  doc_source : option (nat * ReleaseHook)
}.

Record Page : Type := {
  page_state : HandleState;
  page_document : Z;
  page_model : PageModel
}.

Record Bitmap : Type := {
  bmp_state : HandleState;
  bmp_width : Z;
  bmp_height : Z;
  bmp_format : sbr_PixelFormat;
  bmp_stride : Z;
  bmp_storage : PixelStorage;
  (** the pixels the last successful render left, once there was one *)
  bmp_pixels : option (list byte)
}.

(** The parameters of [sbr_PdfPageRender] besides the two handles. *)
Record RenderRequest : Type := {
  req_x : Z;
  req_y : Z;
  req_width : Z;
  req_height : Z;
  req_rotate : sbr_RotateClockwise;
  req_flags : Z
}.

(** Modelled from the spec: the rendering engine, a black box that parses a
    byte source into pages (or fails) and rasterizes a page into a bitmap (or
    faults); it is a parameter of every operation that uses it. *)
Record Engine : Type := {
  engine_load : (Z -> Z -> list byte) -> Z -> option string -> option (list PageModel);
  engine_rasterize : PageModel -> Bitmap -> RenderRequest -> option (list byte)
}.

(** Modelled from the spec: what firing a Bitmap's release path does. *)
Inductive ReleasePath : Type :=
| FreeOwnedPixels
| InvokeReleaseHook (hook : ReleaseHook)
| LeaveBorrowedPixels.

(** Modelled from the spec: the calls back into the host and the releases, in
    the order they happen. *)
Inductive Event : Type :=
| SourceReleased (source : nat) (hook : ReleaseHook)
| BitmapReleased (bmp : Z) (path : ReleasePath).

(** Modelled from the spec: the Handle Registry, a table per handle class from
    integer handles to resources.  Handles are issued in increasing order and
    never reused; 0 is the null handle.  Accepted custom sources are numbered
    in the order of their acceptance. *)
Record Registry : Type := {
  documents : gmap Z Document;
  pages : gmap Z Page;
  bitmaps : gmap Z Bitmap;
  next_handle : Z;
  next_source : nat;
  events : list Event
}.

Definition empty_registry : Registry :=
  {| documents := ∅; pages := ∅; bitmaps := ∅;
     next_handle := 1; next_source := 0; events := [] |}.

(** Modelled from the spec: a handle is usable while its state is [Open]. *)
Definition document_open (reg : Registry) (h : Z) : option Document :=
  match documents reg !! h with
  | Some d => match doc_state d with Open => Some d | Closed => None end
  | None => None
  end.

(** Modelled from the spec: a Page is usable while it is open and its Document
    is; closing a Document invalidates the Pages loaded from it. *)
Definition page_open (reg : Registry) (h : Z) : option Page :=
  match pages reg !! h with
  | Some p =>
      match page_state p, document_open reg (page_document p) with
      | Open, Some _ => Some p
      | _, _ => None
      end
  | None => None
  end.

Definition bitmap_open (reg : Registry) (h : Z) : option Bitmap :=
  match bitmaps reg !! h with
  | Some b => match bmp_state b with Open => Some b | Closed => None end
  | None => None
  end.

(** Modelled from the spec: an open registers the resource under a fresh
    handle. *)
Definition register_document (pgs : list PageModel)
    (src : option (nat * ReleaseHook)) (reg : Registry) : Z * Registry :=
  let h := next_handle reg in
  (h, {| documents := <[h := {| doc_state := Open; doc_pages := pgs;
                                doc_source := src |}]> (documents reg);
         pages := pages reg; bitmaps := bitmaps reg;
         next_handle := h + 1; next_source := next_source reg;
         events := events reg |}).

(** The read function of an in-memory block. *)
Definition memory_reader (data : list byte) (offset length : Z) : list byte :=
  firstn (Z.to_nat length) (skipn (Z.to_nat offset) data).

(** Modelled from the spec: the body of [sbr_PdfDocumentOpenMemory].  A failed
    open registers nothing and returns no handle. *)
Definition open_memory (E : Engine) (data : list byte) (password : option string)
    (reg : Registry) : Outcome Z * Registry :=
  match engine_load E (memory_reader data) (Z.of_nat (length data)) password with
  | Some pgs => let '(h, reg') := register_document pgs None reg in (Done h, reg')
  | None => (Failed OpenError, reg)
  end.

(** Modelled from the spec: the body of [sbr_PdfDocumentOpenCustom].  The
    adapter accepts the source, then the engine constructs the document through
    the read callback; if construction fails the release callback is invoked at
    once, otherwise the Document owns the source until it is closed. *)
Definition open_custom (E : Engine) (src : CustomSource) (password : option string)
    (reg : Registry) : Outcome Z * Registry :=
  let s := next_source reg in
  let accepted :=
    {| documents := documents reg; pages := pages reg; bitmaps := bitmaps reg;
       next_handle := next_handle reg; next_source := S s;
       events := events reg |} in
  match engine_load E (src_read src) (src_size src) password with
  | Some pgs =>
      let '(h, reg') := register_document pgs (Some (s, source_hook src)) accepted in
      (Done h, reg')
  | None =>
      (Failed OpenError,
       {| documents := documents reg; pages := pages reg; bitmaps := bitmaps reg;
          next_handle := next_handle reg; next_source := S s;
          events := events reg ++ [SourceReleased s (source_hook src)] |})
  end.

Definition source_release_events (d : Document) : list Event :=
  match doc_source d with
  | Some (s, hook) => [SourceReleased s hook]
  | None => []
  end.

(** Modelled from the spec: the body of [sbr_PdfDocumentClose] ([Open -> Closed],
    releasing what the Document owns); closing a handle that is closed already
    or was never opened is a [DoubleCloseError] and changes nothing.  The entry
    point of sobar.h is declared [void]: the outcome is the registry's. *)
Definition close_document (h : Z) (reg : Registry) : Outcome unit * Registry :=
  match document_open reg h with
  | Some d =>
      (Done tt,
       {| documents := <[h := {| doc_state := Closed; doc_pages := doc_pages d;
                                 doc_source := doc_source d |}]> (documents reg);
          pages := pages reg; bitmaps := bitmaps reg;
          next_handle := next_handle reg; next_source := next_source reg;
          events := events reg ++ source_release_events d |})
  | None => (Failed DoubleCloseError, reg)
  end.

(** Modelled from the spec: the body of [sbr_PdfDocumentGetPageCount]; an
    accessor on a handle that is not open fails with [InvalidHandleError]. *)
Definition get_page_count (h : Z) (reg : Registry) : Outcome Z :=
  match document_open reg h with
  | Some d => Done (Z.of_nat (length (doc_pages d)))
  | None => Failed InvalidHandleError
  end.

(** Modelled from the spec: the body of [sbr_PdfDocumentLoadPage], for a
    zero-based page index. *)
Definition load_page (h : Z) (pageIndex : Z) (reg : Registry) : Outcome Z * Registry :=
  match document_open reg h with
  | Some d =>
      if 0 <=? pageIndex then
        match doc_pages d !! Z.to_nat pageIndex with
        | Some pm =>
            let p := next_handle reg in
            (Done p,
             {| documents := documents reg;
                pages := <[p := {| page_state := Open; page_document := h;
                                   page_model := pm |}]> (pages reg);
                bitmaps := bitmaps reg;
                next_handle := p + 1; next_source := next_source reg;
                events := events reg |})
        | None => (Failed OpenError, reg)
        end
      else (Failed OpenError, reg)
  | None => (Failed InvalidHandleError, reg)
  end.

(** Modelled from the spec: the body of [sbr_PdfPageClose]. *)
Definition close_page (h : Z) (reg : Registry) : Outcome unit * Registry :=
  match pages reg !! h with
  | Some p =>
      match page_state p with
      | Open =>
          (Done tt,
           {| documents := documents reg;
              pages := <[h := {| page_state := Closed;
                                 page_document := page_document p;
                                 page_model := page_model p |}]> (pages reg);
              bitmaps := bitmaps reg;
              next_handle := next_handle reg; next_source := next_source reg;
              events := events reg |})
      | Closed => (Failed DoubleCloseError, reg)
      end
  | None => (Failed DoubleCloseError, reg)
  end.

(** Modelled from the spec: the body of [sbr_PdfPageGetRotation]. *)
Definition get_page_rotation (h : Z) (reg : Registry) : Outcome Z :=
  match page_open reg h with
  | Some p => Done (Rotation.value (page_rotation (page_model p)))
  | None => Failed InvalidHandleError
  end.

(** Modelled from the spec: the body of [sbr_PdfBitmapCreate].  A null [scan0]
    asks for pixel memory owned by the Bitmap; otherwise the caller's buffer is
    borrowed, with the release callback if one is given. *)
Definition bitmap_create (width height : Z) (format : sbr_PixelFormat)
    (stride scan0 callback context : Z) (reg : Registry) : Z * Registry :=
  let storage :=
    if scan0 =? 0 then OwnedBuffer
    else BorrowedBuffer scan0
           (if callback =? 0 then None
            else Some {| hook_callback := callback; hook_context := context |}) in
  let b := next_handle reg in
  (b, {| documents := documents reg; pages := pages reg;
         bitmaps := <[b := {| bmp_state := Open; bmp_width := width;
                              bmp_height := height; bmp_format := format;
                              bmp_stride := stride; bmp_storage := storage;
                              bmp_pixels := None |}]> (bitmaps reg);
         next_handle := b + 1; next_source := next_source reg;
         events := events reg |}).

(** Modelled from the spec: the release logic is a single dispatch on the
    storage. *)
Definition release_path (s : PixelStorage) : ReleasePath :=
  match s with
  | OwnedBuffer => FreeOwnedPixels
  | BorrowedBuffer _ (Some hook) => InvokeReleaseHook hook
  | BorrowedBuffer _ None => LeaveBorrowedPixels
  end.

Definition close_bitmap_entry (b : Bitmap) : Bitmap :=
  {| bmp_state := Closed; bmp_width := bmp_width b; bmp_height := bmp_height b;
     bmp_format := bmp_format b; bmp_stride := bmp_stride b;
     bmp_storage := bmp_storage b; bmp_pixels := bmp_pixels b |}.

(** Modelled from the spec: the body of [sbr_PdfBitmapRelease]. *)
Definition bitmap_release (h : Z) (reg : Registry) : Outcome unit * Registry :=
  match bitmap_open reg h with
  | Some b =>
      (Done tt,
       {| documents := documents reg; pages := pages reg;
          bitmaps := <[h := close_bitmap_entry b]> (bitmaps reg);
          next_handle := next_handle reg; next_source := next_source reg;
          events := events reg ++ [BitmapReleased h (release_path (bmp_storage b))] |})
  | None => (Failed DoubleCloseError, reg)
  end.

(** Modelled from the spec: the validation a render performs before it invokes
    the engine, and what it then hands to the engine. *)
Definition render_plan (page bmp : Z) (req : RenderRequest) (reg : Registry)
    : Outcome (PageModel * Bitmap * RenderRequest) :=
  match page_open reg page, bitmap_open reg bmp with
  | Some p, Some b =>
      if (0 <? req_width req) && (0 <? req_height req)
      then Done (page_model p, b, req)
      else Failed RenderError
  | _, _ => Failed InvalidHandleError
  end.

Definition store_pixels (b : Bitmap) (px : list byte) : Bitmap :=
  {| bmp_state := bmp_state b; bmp_width := bmp_width b; bmp_height := bmp_height b;
     bmp_format := bmp_format b; bmp_stride := bmp_stride b;
     bmp_storage := bmp_storage b; bmp_pixels := Some px |}.

(** Modelled from the spec: the Render Pipeline.  An engine fault is caught and
    becomes a [RenderError]; a successful render changes the pixels of the
    bitmap and nothing else. *)
Definition render (E : Engine) (page bmp : Z) (req : RenderRequest) (reg : Registry)
    : Outcome unit * Registry :=
  match render_plan page bmp req reg with
  | Done (pm, b, r) =>
      match engine_rasterize E pm b r with
      | Some px =>
          (Done tt,
           {| documents := documents reg; pages := pages reg;
              bitmaps := <[bmp := store_pixels b px]> (bitmaps reg);
              next_handle := next_handle reg; next_source := next_source reg;
              events := events reg |})
      | None => (Failed RenderError, reg)
      end
  | Failed e => (Failed e, reg)
  end.

(** Modelled from the spec: the body of [sbr_PdfPageRender], whose signature
    sobar.h declares: it returns an [int], 0 for failure. *)
Definition sbr_PdfPageRender (E : Engine) (page bmp : Z) (x y width height : Z)
    (rotate : sbr_RotateClockwise) (flags : Z) (reg : Registry) : Z * Registry :=
  let req := {| req_x := x; req_y := y; req_width := width; req_height := height;
                req_rotate := rotate; req_flags := flags |} in
  match render E page bmp req reg with
  | (Done _, reg') => (1, reg')
  | (Failed _, reg') => (0, reg')
  end.

(** Modelled from the spec: the operations a host may issue on the registry,
    and a run of them. *)
Inductive Op : Type :=
| OpOpenMemory (data : list byte) (password : option string)
| OpOpenCustom (src : CustomSource) (password : option string)
| OpCloseDocument (doc : Z)
| OpLoadPage (doc : Z) (pageIndex : Z)
| OpClosePage (page : Z)
| OpBitmapCreate (width height : Z) (format : sbr_PixelFormat)
    (stride scan0 callback context : Z)
| OpBitmapRelease (bmp : Z)
| OpRender (page bmp : Z) (req : RenderRequest).

Definition step (E : Engine) (reg : Registry) (op : Op) : Registry :=
  match op with
  | OpOpenMemory data pw => snd (open_memory E data pw reg)
  | OpOpenCustom src pw => snd (open_custom E src pw reg)
  | OpCloseDocument h => snd (close_document h reg)
  | OpLoadPage h i => snd (load_page h i reg)
  | OpClosePage h => snd (close_page h reg)
  | OpBitmapCreate w h f st sc cb ctx => snd (bitmap_create w h f st sc cb ctx reg)
  | OpBitmapRelease h => snd (bitmap_release h reg)
  | OpRender p b req => snd (render E p b req reg)
  end.

Definition run (E : Engine) (ops : list Op) (reg : Registry) : Registry :=
  fold_left (step E) ops reg.


Definition is_source_release (s : nat) (e : Event) : bool :=
  match e with
  | SourceReleased s' _ => Nat.eqb s' s
  | _ => false
  end.


Definition source_releases (s : nat) (evs : list Event) : list Event :=
  List.filter (is_source_release s) evs.

(** The open Document that owns source [s], if there is one. *)
Definition owns_source (reg : Registry) (h : Z) (s : nat) : Prop :=
  exists d hook, document_open reg h = Some d /\ doc_source d = Some (s, hook).



(** The invariant of the custom sources: a source that was not accepted yet was
    never released; a source owned by a Document has been released once if the
    Document is closed and not at all if it is open; no two Documents own the
    same source; an accepted source that no Document owns was released once. *)
Definition source_inv (reg : Registry) : Prop :=
  (forall h : Z, next_handle reg <= h -> documents reg !! h = None) /\
  (forall s : nat, (next_source reg <= s)%nat -> source_releases s (events reg) = []) /\
  (forall (h : Z) (d : Document) (s : nat) (hook : ReleaseHook),
     documents reg !! h = Some d -> doc_source d = Some (s, hook) ->
     (s < next_source reg)%nat /\
     source_releases s (events reg) =
       match doc_state d with
       | Open => []
       | Closed => [SourceReleased s hook]
       end) /\
  (forall (h1 h2 : Z) (d1 d2 : Document) (s : nat) (k1 k2 : ReleaseHook),
     documents reg !! h1 = Some d1 -> documents reg !! h2 = Some d2 ->
     doc_source d1 = Some (s, k1) -> doc_source d2 = Some (s, k2) -> h1 = h2) /\
  (forall s : nat, (s < next_source reg)%nat ->
     (exists (h : Z) (d : Document) (hook : ReleaseHook),
        documents reg !! h = Some d /\ doc_source d = Some (s, hook)) \/
     length (source_releases s (events reg)) = 1%nat).

(** An engine to run the registry on: it accepts a source whose first four
    bytes are "%PDF" when no password is asked for, and gives it one page per
    byte that follows; it paints every pixel white. *)
Definition demo_load (read : Z -> Z -> list byte) (size : Z) (password : option string)
    : option (list PageModel) :=
  match password, read 0 4 with
  | None, [x25; x50; x44; x46] =>
      Some (map (fun c => {| page_rotation := sbr_RotateClockwise_0;
                             page_content := [c] |})
                (read 4 (size - 4)))
  | _, _ => None
  end.

Definition demo_engine : Engine :=
  {| engine_load := demo_load;
     engine_rasterize := fun _ b _ =>
       Some (repeat xff (Z.to_nat (bmp_stride b * bmp_height b))) |}.

(** A one-page file for [demo_engine], and two custom sources: one over that
    file and one the engine cannot parse. *)
Definition demo_file : list byte := [x25; x50; x44; x46; x0a].

Definition demo_source : CustomSource :=
  {| src_context := 9; src_size := 5; src_read := memory_reader demo_file;
     src_release := 7 |}.

Definition demo_bad_source : CustomSource :=
  {| src_context := 11; src_size := 1; src_read := fun _ _ => [x00];
     src_release := 7 |}.

End Sobar.

(* ===================================================================== *)
(** * Part II: properties *)
(* ===================================================================== *)

Module RenderFlagsFacts.
Import RenderFlags.

Lemma value_pow2 (f : sbr_RenderFlags) : value f = 2 ^ bit f /\ 0 <= bit f < 15.
Proof. destruct f; vm_compute; intuition congruence. Qed.

Lemma bit_inj (f g : sbr_RenderFlags) : bit f = bit g -> f = g.
Proof. destruct f, g; vm_compute; congruence. Qed.

Lemma has_flag_testbit (mask : Z) (f : sbr_RenderFlags) :
  has_flag mask f = Z.testbit mask (bit f).
Proof.
  unfold has_flag. destruct (value_pow2 f) as [-> [Hb _]].
  destruct (Z.testbit mask (bit f)) eqn:Ht.
  - apply negb_true_iff, Z.eqb_neq. intros H0.
    assert (Hc : Z.testbit (Z.land mask (2 ^ bit f)) (bit f) = true).
    { rewrite Z.land_spec, Ht, Z.pow2_bits_true; auto. }
    rewrite H0, Z.bits_0 in Hc. discriminate.
  - apply negb_false_iff, Z.eqb_eq, Z.bits_inj'. intros n Hn.
    rewrite Z.land_spec, Z.bits_0.
    destruct (Z.eq_dec (bit f) n) as [<- | Hne].
    + rewrite Ht. reflexivity.
    + rewrite (Z.pow2_bits_false _ _ Hne). apply andb_false_r.
Qed.

Lemma has_flag_combine (fs : list sbr_RenderFlags) (f : sbr_RenderFlags) :
  has_flag (combine fs) f = true <-> In f fs.
Proof.
  rewrite has_flag_testbit. induction fs as [| g fs IH]; simpl.
  - rewrite Z.bits_0. split; [discriminate | tauto].
  - rewrite Z.lor_spec, orb_true_iff, IH.
    destruct (value_pow2 g) as [-> [Hg _]].
    destruct (Z.eq_dec (bit g) (bit f)) as [E | N].
    + rewrite E, Z.pow2_bits_true by (rewrite <- E; exact Hg).
      apply bit_inj in E. tauto.
    + rewrite (Z.pow2_bits_false _ _ N).
      split; intros [H | H]; try discriminate; auto.
      subst g. contradiction.
Qed.

Lemma combine_perm (fs gs : list sbr_RenderFlags) :
  Permutation fs gs -> combine fs = combine gs.
Proof.
  induction 1 as [| x l l' _ IH | x y l | l l' l'' _ IH1 _ IH2]; simpl.
  - reflexivity.
  - now rewrite IH.
  - rewrite !Z.lor_assoc. f_equal. apply Z.lor_comm.
  - congruence.
Qed.

Lemma combine_range (fs : list sbr_RenderFlags) :
  0 <= combine fs < 2 ^ 15 /\ to_int (combine fs) = combine fs.
Proof.
  assert (H : 0 <= combine fs < 2 ^ 15).
  { induction fs as [| f fs IH]; simpl.
    - lia.
    - destruct IH as [IH0 IH1]. split.
      + apply Z.lor_nonneg. split; [destruct f; simpl; lia | exact IH0].
      + destruct (Z.eq_dec (Z.lor (value f) (combine fs)) 0) as [-> | Hnz]; [lia |].
        apply Z.log2_lt_pow2.
        * pose proof (Z.lor_nonneg (value f) (combine fs)) as Hn.
          assert (0 <= Z.lor (value f) (combine fs))
            by (apply Hn; split; [destruct f; simpl; lia | exact IH0]).
          lia.
        * rewrite Z.log2_lor by (destruct f; simpl; lia).
          apply Z.max_lub_lt.
          -- destruct f; vm_compute; reflexivity.
          -- destruct (Z.eq_dec (combine fs) 0) as [-> | Hc]; [vm_compute; reflexivity |].
             apply Z.log2_lt_pow2; lia. }
  split; [exact H |].
  unfold to_int, wrap_signed. cbv zeta.
  rewrite Z.mod_small by (change (2 ^ 32) with 4294967296; change (2 ^ 15) with 32768 in H; lia).
  change (2 ^ (32 - 1)) with 2147483648. change (2 ^ 15) with 32768 in H.
  destruct (Z.ltb_spec (combine fs) 2147483648); [reflexivity | lia].
Qed.


(** C5: the render flags are single-bit, pairwise distinct values; a mask is
    built from them with bitwise OR, the order of the flags does not matter,
    setting one flag leaves every other flag as it was, and a mask in which a
    flag is not set asks for the default: anti-aliasing of text, images and
    paths on, white-fill performed, exceptions caught. *)
Theorem render_flags_independent_single_bits :
  (forall f, exists k, 0 <= k < 31 /\ value f = 2 ^ k) /\
  (forall f g, value f = value g -> f = g) /\
  (forall f, In f all) /\ NoDup (map value all) /\
  (forall fs gs, combine (fs ++ gs) = Z.lor (combine fs) (combine gs)) /\
  (forall fs gs, Permutation fs gs -> combine fs = combine gs) /\
  (forall fs f, has_flag (combine fs) f = true <-> In f fs) /\
  (forall fs, 0 <= combine fs < 2 ^ 15 /\ to_int (combine fs) = combine fs) /\
  (forall m f, has_flag (Z.lor m (value f)) f = true) /\
  (forall m f g, f <> g -> has_flag (Z.lor m (value f)) g = has_flag m g) /\
  (forall m, has_flag m sbr_rfNoSmoothText = false -> smooth_text m = true) /\
  (forall m, has_flag m sbr_rfNoSmoothImage = false -> smooth_image m = true) /\
  (forall m, has_flag m sbr_rfNoSmoothPath = false -> smooth_path m = true) /\
  (forall m, has_flag m sbr_rfNoWhiteFill = false -> white_fill m = true) /\
  (forall m, has_flag m sbr_rfNoCatch = false -> catch_exceptions m = true) /\
  (forall f, has_flag (combine []) f = false).
Proof.
  repeat apply conj.
  - intros f. exists (bit f). destruct (value_pow2 f) as [E [H0 H1]].
    split; [lia | exact E].
  - intros f g E. apply bit_inj. unfold bit. now rewrite E.
  - intros f. destruct f; simpl; tauto.
  - vm_compute. repeat (constructor; [rewrite ?list_elem_of_In; simpl; intuition discriminate |]).
    constructor.
  - intros fs gs. induction fs as [| f fs IH]; simpl.
    + reflexivity.
    + now rewrite IH, Z.lor_assoc.
  - apply combine_perm.
  - apply has_flag_combine.
  - intros fs. apply combine_range.
  - intros m f. rewrite has_flag_testbit, Z.lor_spec.
    destruct (value_pow2 f) as [-> [H0 _]].
    rewrite Z.pow2_bits_true by exact H0. apply orb_true_r.
  - intros m f g Hne. rewrite !has_flag_testbit, Z.lor_spec.
    destruct (value_pow2 f) as [-> _].
    rewrite Z.pow2_bits_false; [apply orb_false_r |].
    intros E. apply Hne. now apply bit_inj.
  - intros m H. unfold smooth_text. now rewrite H.
  - intros m H. unfold smooth_image. now rewrite H.
  - intros m H. unfold smooth_path. now rewrite H.
  - intros m H. unfold white_fill. now rewrite H.
  - intros m H. unfold catch_exceptions. now rewrite H.
  - intros f. destruct f; reflexivity.
Qed.

(** *** Reading a mask back *)

Lemma testbit_combine (fs : list sbr_RenderFlags) (n : Z) :
  0 <= n ->
  Z.testbit (combine fs) n = existsb (fun f => bit f =? n) fs.
Proof.
  intros Hn. induction fs as [| f fs IH]; simpl.
  - apply Z.bits_0.
  - rewrite Z.lor_spec, IH. f_equal.
    destruct (value_pow2 f) as [-> [Hb _]]. apply Z.pow2_bits_eqb, Hb.
Qed.

Lemma existsb_bit_decode (mask n : Z) (l : list sbr_RenderFlags) :
  existsb (fun f => bit f =? n) (List.filter (has_flag mask) l) =
  Z.testbit mask n && existsb (fun f => bit f =? n) l.
Proof.
  induction l as [| f l IH]; simpl.
  - now rewrite andb_false_r.
  - destruct (has_flag mask f) eqn:Hf; simpl; rewrite IH;
      rewrite has_flag_testbit in Hf;
      destruct (Z.eqb_spec (bit f) n) as [<- | Hne]; simpl;
      rewrite ?Hf; simpl; reflexivity.
Qed.

Lemma all_flags_listed (f : sbr_RenderFlags) : In f all.
Proof. destruct f; simpl; tauto. Qed.

(** X10: decoding a mask and combining the flags again keeps the bits of the
    fourteen flags (0x7FBF) and drops every other bit; the flags decoded from a
    combination are exactly the flags combined; bit 6 (0x40) and the bits from
    15 on belong to no flag and are set by no combination. *)
Theorem render_flags_decode_round_trip :
  combine all = 0x7FBF /\
  (forall mask : Z, combine (decode mask) = Z.land mask 0x7FBF) /\
  (forall mask : Z, Z.land mask 0x7FBF = mask -> combine (decode mask) = mask) /\
  (forall (fs : list sbr_RenderFlags) (f : sbr_RenderFlags),
     In f (decode (combine fs)) <-> In f fs) /\
  (forall fs : list sbr_RenderFlags, combine (decode (combine fs)) = combine fs) /\
  (forall mask : Z, decode (Z.land mask 0x7FBF) = decode mask) /\
  (forall (fs : list sbr_RenderFlags) (n : Z),
     n = 6 \/ 15 <= n -> Z.testbit (combine fs) n = false).
Proof.
  assert (Hall : combine all = 0x7FBF) by reflexivity.
  assert (Hround : forall mask : Z, combine (decode mask) = Z.land mask 0x7FBF).
  { intros mask. apply Z.bits_inj'. intros n Hn.
    rewrite Z.land_spec, <- Hall, !testbit_combine by exact Hn.
    apply existsb_bit_decode. }
  assert (Hin : forall (fs : list sbr_RenderFlags) (f : sbr_RenderFlags),
             In f (decode (combine fs)) <-> In f fs).
  { intros fs f. unfold decode. rewrite List.filter_In, has_flag_combine.
    pose proof (all_flags_listed f). tauto. }
  repeat apply conj.
  - exact Hall.
  - exact Hround.
  - intros mask Hm. now rewrite Hround.
  - exact Hin.
  - intros fs. rewrite Hround. apply Z.bits_inj'. intros n Hn.
    rewrite Z.land_spec, <- Hall, !testbit_combine by exact Hn.
    destruct (existsb (fun f => bit f =? n) fs) eqn:He; [| reflexivity].
    rewrite andb_true_l.
    apply existsb_exists in He. destruct He as (f & _ & Hf).
    apply existsb_exists. exists f. split; [apply all_flags_listed | exact Hf].
  - intros mask. unfold decode. apply List.filter_ext. intros f.
    rewrite !has_flag_testbit, Z.land_spec.
    replace (Z.testbit 0x7FBF (bit f)) with true by (destruct f; reflexivity).
    apply andb_true_r.
  - intros fs n Hn.
    assert (H0 : 0 <= n) by lia.
    rewrite testbit_combine by exact H0.
    destruct (existsb (fun f => bit f =? n) fs) eqn:He; [| reflexivity].
    apply existsb_exists in He. destruct He as (f & _ & Hf).
    apply Z.eqb_eq in Hf. destruct (value_pow2 f) as [_ [_ Hlt]].
    destruct Hn as [-> | Hn]; [destruct f; discriminate | lia].
Qed.

Example annot_without_white_fill :
  combine [sbr_rfAnnot; sbr_rfNoWhiteFill] = 0x21 /\
  white_fill 0x21 = false /\ smooth_text 0x21 = true /\ white_fill 1 = true.
Proof. repeat split. Qed.

End RenderFlagsFacts.

Module PluginFacts.
Import Plugin.

Section Handler.
Context {L : Library}.

Lemma to_uint32_range (x : Z) : 0 <= to_uint32 x < 2 ^ 32.
Proof. unfold to_uint32, wrap_unsigned. apply Z.mod_pos_bound. lia. Qed.

(** A method call only appends open-file calls to the log. *)
Lemma HandleMethodCall_calls (r : MethodCall) (w : Process L) :
  exists opened : list Z,
    calls (snd (HandleMethodCall r w)) = calls w ++ map CallDocumentOpenFile opened /\
    opened = (if String.eqb (method_name r) "file"
              then [fst (sbr_PdfDocumentOpenFile L (library w))] else []).
Proof.
  unfold HandleMethodCall.
  destruct (String.eqb (method_name r) "file").
  - destruct (sbr_PdfDocumentOpenFile L (library w)) as [doc lib'] eqn:E.
    exists [doc]. simpl. auto.
  - exists []. simpl.
    repeat match goal with |- context [if ?c then _ else _] => destruct c end;
      simpl; rewrite app_nil_r; auto.
Qed.

Lemma handle_all_calls (requests : list MethodCall) (w : Process L) :
  exists opened : list Z,
    calls (snd (handle_all requests w)) = calls w ++ map CallDocumentOpenFile opened /\
    length (fst (handle_all requests w)) = length requests /\
    length opened =
      length (List.filter (fun r => String.eqb (method_name r) "file") requests).
Proof.
  revert w. induction requests as [| r rest IH]; intros w; simpl.
  - exists []. simpl. rewrite app_nil_r. auto.
  - destruct (HandleMethodCall_calls r w) as (o1 & H1 & Ho1).
    destruct (HandleMethodCall r w) as [resp w1] eqn:E1. simpl in H1.
    destruct (IH w1) as (o2 & H2 & Hl & Hn).
    destruct (handle_all rest w1) as [resps w2] eqn:E2. simpl in *.
    exists (o1 ++ o2). rewrite H2, H1, map_app, app_assoc.
    split; [reflexivity |]. split; [now rewrite Hl |].
    rewrite length_app, Hn, Ho1.
    destruct (String.eqb (method_name r) "file"); reflexivity.
Qed.

Lemma open_handles_opens (opened acc : list Z) :
  open_handles (map CallDocumentOpenFile opened) acc =
  acc ++ List.filter (fun h => negb (h =? 0)) opened.
Proof.
  revert acc. induction opened as [| h rest IH]; intros acc; simpl.
  - now rewrite app_nil_r.
  - rewrite IH. destruct (h =? 0); simpl.
    + reflexivity.
    + now rewrite <- app_assoc.
Qed.

Lemma count_calls_app (p : SbrCall -> bool) (l1 l2 : list SbrCall) :
  count_calls p (l1 ++ l2) = (count_calls p l1 + count_calls p l2)%nat.
Proof. unfold count_calls. now rewrite List.filter_app, length_app. Qed.

Lemma count_calls_opens (p : SbrCall -> bool) (opened : list Z) :
  (forall h, p (CallDocumentOpenFile h) = false) ->
  count_calls p (map CallDocumentOpenFile opened) = 0%nat.
Proof.
  intros Hp. unfold count_calls.
  induction opened as [| h rest IH]; simpl; [reflexivity |].
  now rewrite Hp.
Qed.

End Handler.

(** C10: the response of the method handler depends on the method name and not
    on the arguments of the call.  "file" responds Success with the pointer
    that [sbr_PdfDocumentOpenFile] returned, cast to a 32-bit unsigned integer;
    "asset", "data" and "close" respond Success with 0 and leave the library
    and its call log as they were; every other name responds NotImplemented. *)
Theorem handle_method_call_by_name (L : Library) (w : Process L) :
  (forall name args1 args2,
     HandleMethodCall {| method_name := name; arguments := args1 |} w =
     HandleMethodCall {| method_name := name; arguments := args2 |} w) /\
  (forall args,
     HandleMethodCall {| method_name := "file"; arguments := args |} w =
     (Success (EncInt (to_uint32 (fst (sbr_PdfDocumentOpenFile L (library w))))),
      {| library := snd (sbr_PdfDocumentOpenFile L (library w));
         calls := calls w ++
                  [CallDocumentOpenFile (fst (sbr_PdfDocumentOpenFile L (library w)))] |})) /\
  (forall ptr, 0 <= to_uint32 ptr < 2 ^ 32) /\
  (forall name args,
     name = "asset"%string \/ name = "data"%string \/ name = "close"%string ->
     HandleMethodCall {| method_name := name; arguments := args |} w =
     (Success (EncInt 0), w)) /\
  (forall name args,
     name <> "file"%string -> name <> "asset"%string ->
     name <> "data"%string -> name <> "close"%string ->
     HandleMethodCall {| method_name := name; arguments := args |} w =
     (NotImplemented, w)).
Proof.
  repeat apply conj.
  - intros name args1 args2. reflexivity.
  - intros args. unfold HandleMethodCall. simpl.
    destruct (sbr_PdfDocumentOpenFile L (library w)) as [doc lib']. reflexivity.
  - apply to_uint32_range.
  - intros name args [-> | [-> | ->]]; reflexivity.
  - intros name args Hf Ha Hd Hc. unfold HandleMethodCall. simpl.
    apply String.eqb_neq in Hf, Ha, Hd, Hc. now rewrite Hf, Ha, Hd, Hc.
Qed.

(** C8, as the plugin has it: over the life of one plugin object the library is
    initialized exactly once, by the constructor and before every other call the
    object makes, and finalized exactly once, by the destructor and after every
    other call; in between the object only opens documents, one per "file"
    call, and closes none, so the non-null handles it was given are all open
    when Finalize is called. *)
Theorem plugin_object_initializes_and_finalizes_once
    (L : Library) (requests : list MethodCall) (w : Process L) :
  exists opened : list Z,
    let made := CallInitialize :: map CallDocumentOpenFile opened ++ [CallFinalize] in
    calls (snd (plugin_lifetime requests w)) = calls w ++ made /\
    count_calls is_initialize made = 1%nat /\
    count_calls is_finalize made = 1%nat /\
    hd_error made = Some CallInitialize /\
    List.last made CallInitialize = CallFinalize /\
    length opened =
      length (List.filter (fun r => String.eqb (method_name r) "file") requests) /\
    open_at_finalize made = List.filter (fun h => negb (h =? 0)) opened.
Proof.
  unfold plugin_lifetime.
  destruct (handle_all_calls requests (PdfRenderPlugin_construct w))
    as (opened & Hc & _ & Hn).
  destruct (handle_all requests (PdfRenderPlugin_construct w)) as [resps w1] eqn:E.
  simpl in Hc. exists opened. cbv zeta. repeat apply conj.
  - simpl. rewrite Hc, <- !app_assoc. reflexivity.
  - change (CallInitialize :: map CallDocumentOpenFile opened ++ [CallFinalize])
      with ([CallInitialize] ++ map CallDocumentOpenFile opened ++ [CallFinalize]).
    rewrite !count_calls_app, count_calls_opens by reflexivity. reflexivity.
  - change (CallInitialize :: map CallDocumentOpenFile opened ++ [CallFinalize])
      with ([CallInitialize] ++ map CallDocumentOpenFile opened ++ [CallFinalize]).
    rewrite !count_calls_app, count_calls_opens by reflexivity. reflexivity.
  - reflexivity.
  - rewrite app_comm_cons. apply last_last.
  - exact Hn.
  - unfold open_at_finalize.
    rewrite app_comm_cons, rev_app_distr. simpl.
    rewrite rev_app_distr, rev_involutive. simpl.
    apply open_handles_opens.
Qed.

(** C8, as stated, does not hold of the plugin.  After a single "file" call the
    handle it opened is still open when the destructor finalizes the library;
    and a process in which two plugin objects live initializes the library
    twice. *)
Lemma finalize_with_open_handle_and_second_initialize :
  calls (snd (plugin_lifetime [file_call] fresh_process)) =
    [CallInitialize; CallDocumentOpenFile 4096; CallFinalize] /\
  open_at_finalize (calls (snd (plugin_lifetime [file_call] fresh_process))) = [4096] /\
  count_calls is_initialize
    (calls (snd (plugin_lifetime [] (snd (plugin_lifetime [] fresh_process))))) = 2%nat.
Proof. repeat split. Qed.

(** *** The handler over a run of calls, and the registrar *)

Section HandlerRuns.
Context {L : Library}.

Lemma HandleMethodCall_not_file (r : MethodCall) (w : Process L) :
  is_file r = false ->
  snd (HandleMethodCall r w) = w /\
  (fst (HandleMethodCall r w) = Success (EncInt 0) \/
   fst (HandleMethodCall r w) = NotImplemented).
Proof.
  unfold is_file, HandleMethodCall. intros ->.
  repeat match goal with |- context [if ?c then _ else _] => destruct c end;
    simpl; auto.
Qed.

Lemma HandleMethodCall_file (r : MethodCall) (w : Process L) :
  is_file r = true ->
  HandleMethodCall r w =
  (Success (EncInt (to_uint32 (fst (sbr_PdfDocumentOpenFile L (library w))))),
   {| library := snd (sbr_PdfDocumentOpenFile L (library w));
      calls := calls w ++
               [CallDocumentOpenFile (fst (sbr_PdfDocumentOpenFile L (library w)))] |}).
Proof.
  unfold is_file, HandleMethodCall. intros ->.
  destruct (sbr_PdfDocumentOpenFile L (library w)); reflexivity.
Qed.

Lemma destroy_all_calls (plugins : list nat) :
  forall w : Process L,
    calls (fold_left (fun w' _ => PdfRenderPlugin_destroy w') plugins w) =
    calls w ++ repeat CallFinalize (length plugins).
Proof.
  induction plugins as [| p rest IH]; intros w; simpl.
  - now rewrite app_nil_r.
  - rewrite IH. simpl. now rewrite <- app_assoc.
Qed.

Lemma count_calls_repeat_same (p : SbrCall -> bool) (c : SbrCall) (n : nat) :
  p c = true -> count_calls p (repeat c n) = n.
Proof.
  intros Hp. unfold count_calls. induction n as [| n IH]; simpl; [reflexivity |].
  rewrite Hp. simpl. now rewrite IH.
Qed.

Lemma no_open_before_initialize_opens_free (log rest : list SbrCall) :
  count_calls is_open_file log = 0%nat ->
  count_calls is_initialize log = 0%nat ->
  no_open_before_initialize (log ++ rest) = no_open_before_initialize rest.
Proof.
  unfold count_calls. induction log as [| c log IH]; simpl; [reflexivity |].
  destruct c; simpl; intros Ho Hi; try discriminate; apply IH; assumption.
Qed.

(** What a session does to the registrar and to the log. *)
Lemma host_session_spec (events : list HostEvent) :
  forall (registrar : Registrar) (w : Process L),
    (forall ch, ch <> "pdf_render"%string -> channel_handler registrar ch = None) ->
    exists body : list SbrCall,
      calls (snd (host_session events registrar w)) = calls w ++ body /\
      length (owned_plugins (snd (fst (host_session events registrar w)))) =
        (length (owned_plugins registrar) + length (List.filter is_register events))%nat /\
      count_calls is_initialize body = length (List.filter is_register events) /\
      count_calls is_finalize body = 0%nat /\
      (forall ch, ch <> "pdf_render"%string ->
         channel_handler (snd (fst (host_session events registrar w))) ch = None) /\
      (channel_handler registrar "pdf_render" = None ->
       no_open_before_initialize body = true).
Proof.
  induction events as [| e rest IH]; intros registrar w Hother.
  - exists []. simpl. rewrite app_nil_r. repeat split; auto; lia.
  - destruct e as [| channel call]; simpl.
    + destruct (IH {| channel_handler := fun name =>
                        if String.eqb name "pdf_render"
                        then Some (length (owned_plugins registrar))
                        else channel_handler registrar name;
                      owned_plugins := owned_plugins registrar ++
                                       [length (owned_plugins registrar)] |}
                   (PdfRenderPlugin_construct w))
        as (body & Hc & Hn & Hi & Hf & Ho & _).
      { intros ch Hch. simpl. apply String.eqb_neq in Hch. rewrite Hch.
        apply Hother. now apply String.eqb_neq. }
      exists (CallInitialize :: body). simpl in *.
      rewrite Hc, <- app_assoc. split; [reflexivity |].
      rewrite Hn, length_app. simpl.
      split; [lia |]. unfold count_calls in *. simpl. rewrite Hi, Hf. auto.
    + unfold deliver.
      destruct (channel_handler registrar channel) as [plugin |] eqn:Hh.
      * destruct (HandleMethodCall_calls call w) as (opened & Hc1 & _).
        destruct (HandleMethodCall call w) as [resp w1] eqn:E1. simpl in Hc1.
        destruct (IH registrar w1 Hother) as (body & Hc & Hn & Hi & Hf & Ho & Hb).
        destruct (host_session rest registrar w1) as [[resps registrar2] w2] eqn:E2.
        simpl in *. exists (map CallDocumentOpenFile opened ++ body).
        rewrite Hc, Hc1, <- app_assoc. split; [reflexivity |]. split; [exact Hn |].
        rewrite !count_calls_app, !count_calls_opens by reflexivity.
        split; [exact Hi |]. split; [exact Hf |]. split; [exact Ho |].
        intros Hnone.
        destruct (String.eqb_spec channel "pdf_render") as [-> | Hne].
        -- rewrite Hnone in Hh. discriminate.
        -- rewrite (Hother channel Hne) in Hh. discriminate.
      * destruct (IH registrar w Hother) as (body & Hc & Hn & Hi & Hf & Ho & Hb).
        destruct (host_session rest registrar w) as [[resps registrar2] w2] eqn:E2.
        simpl in *. exists body. auto 10.
Qed.

End HandlerRuns.

(** X5: what "file" replies identifies the document only modulo 2^32: a pointer
    below 2^32 is replied as it is, two pointers that differ by a multiple of
    2^32 get the same reply, and the reply is 0 exactly for the pointers that
    are multiples of 2^32, the null pointer among them. *)
Theorem file_reply_is_pointer_modulo_2_32
    (L : Library) (w : Process L) (args : EncodableValue) :
  let p := fst (sbr_PdfDocumentOpenFile L (library w)) in
  let reply := fst (HandleMethodCall {| method_name := "file"; arguments := args |} w) in
  (0 <= p < 2 ^ 32 -> reply = Success (EncInt p)) /\
  (reply = Success (EncInt 0) <-> p mod 2 ^ 32 = 0) /\
  (forall (w2 : Process L) (k : Z),
     fst (sbr_PdfDocumentOpenFile L (library w2)) = p + k * 2 ^ 32 ->
     fst (HandleMethodCall {| method_name := "file"; arguments := args |} w2) = reply).
Proof.
  cbv zeta.
  rewrite (HandleMethodCall_file {| method_name := "file"; arguments := args |} w eq_refl).
  simpl.
  unfold to_uint32, wrap_unsigned. repeat apply conj.
  - intros Hp. now rewrite Z.mod_small by exact Hp.
  - intros [= H]. exact H.
  - intros ->. reflexivity.
  - intros w2 k Hk.
    rewrite (HandleMethodCall_file {| method_name := "file"; arguments := args |} w2 eq_refl).
    simpl.
    unfold to_uint32, wrap_unsigned. rewrite Hk.
    now rewrite Z.mod_add by (change (2 ^ 32) with 4294967296; lia).
Qed.

(** X6: the handler answers every call of a run, in order, and never with an
    error: each response is NotImplemented or Success with an integer in the
    range of a 32-bit unsigned integer. *)
Theorem handler_never_reports_an_error
    (L : Library) (requests : list MethodCall) (w : Process L) :
  length (fst (handle_all requests w)) = length requests /\
  Forall (fun resp => resp = NotImplemented \/
                      exists v : Z, resp = Success (EncInt v) /\ 0 <= v < 2 ^ 32)
         (fst (handle_all requests w)).
Proof.
  revert w. induction requests as [| r rest IH]; intros w; simpl.
  - split; [reflexivity | constructor].
  - assert (Hr : fst (HandleMethodCall r w) = NotImplemented \/
                 exists v : Z, fst (HandleMethodCall r w) = Success (EncInt v) /\
                               0 <= v < 2 ^ 32).
    { destruct (is_file r) eqn:Hf.
      - right. rewrite (HandleMethodCall_file r w Hf). simpl.
        eexists. split; [reflexivity | apply to_uint32_range].
      - destruct (HandleMethodCall_not_file r w Hf) as [_ [-> | ->]]; [right | left; reflexivity].
        exists 0. split; [reflexivity |]. change (2 ^ 32) with 4294967296. lia. }
    destruct (HandleMethodCall r w) as [resp w1].
    destruct (IH w1) as [Hlen Hall].
    destruct (handle_all rest w1) as [resps w2]. simpl in *.
    split; [now rewrite Hlen | constructor; assumption].
Qed.

(** X7: over a run of calls the handler changes the library by one
    [sbr_PdfDocumentOpenFile] per "file" call and in no other way: where the
    other calls stand, what they are named and what arguments any call carries
    makes no difference, and a run without a "file" call leaves the process as
    it was. *)
Theorem handler_opens_once_per_file_call
    (L : Library) (requests : list MethodCall) (w : Process L) :
  library (snd (handle_all requests w)) =
    Nat.iter (length (List.filter is_file requests))
             (fun s => snd (sbr_PdfDocumentOpenFile L s)) (library w) /\
  count_calls is_open_file (calls (snd (handle_all requests w))) =
    (count_calls is_open_file (calls w) + length (List.filter is_file requests))%nat /\
  (List.filter is_file requests = [] -> snd (handle_all requests w) = w).
Proof.
  revert w. induction requests as [| r rest IH]; intros w; simpl.
  - repeat split. lia.
  - destruct (is_file r) eqn:Hf.
    + rewrite (HandleMethodCall_file r w Hf).
      match goal with |- context [handle_all rest ?w1] =>
        destruct (IH w1) as (Hlib & Hcount & _);
        destruct (handle_all rest w1) as [resps w2] end.
      simpl in *. rewrite Hlib, Hcount, count_calls_app.
      split; [| split; [unfold count_calls; simpl; lia | discriminate]].
      exact (Nat.iter_swap _ _ (fun s => snd (sbr_PdfDocumentOpenFile L s)) (library w)).
    + destruct (HandleMethodCall_not_file r w Hf) as [Hw _].
      destruct (HandleMethodCall r w) as [resp w1]. simpl in Hw. subst w1.
      destruct (IH w) as (Hlib & Hcount & Hnone).
      destruct (handle_all rest w) as [resps w2]. simpl in *. auto.
Qed.

(** X8: in the life of a registrar no document is opened before the library is
    initialized: [RegisterWithRegistrar] constructs the plugin before it sets
    the handler, so a "file" call that arrives before the registration finds no
    handler.  Registration sets a handler for the channel "pdf_render" only: a
    call for any other channel gets no response and changes nothing. *)
Theorem registrar_initializes_before_any_open
    (L : Library) (events : list HostEvent) (w : Process L) :
  (exists body : list SbrCall,
     calls (snd (host_session events empty_registrar w)) = calls w ++ body /\
     no_open_before_initialize body = true) /\
  (forall (channel : string) (call : MethodCall),
     channel <> "pdf_render"%string ->
     deliver channel call (snd (fst (host_session events empty_registrar w)))
       (snd (host_session events empty_registrar w)) =
     (None, snd (host_session events empty_registrar w))) /\
  (forall (channel : string) (call : MethodCall),
     deliver channel call empty_registrar w = (None, w)).
Proof.
  destruct (host_session_spec events empty_registrar w (fun _ _ => eq_refl))
    as (body & Hc & _ & _ & _ & Ho & Hb).
  split; [exists body; split; [exact Hc | apply Hb; reflexivity] |]. split.
  - intros channel call Hne. unfold deliver. now rewrite (Ho channel Hne).
  - intros channel call. reflexivity.
Qed.

(** X9: over the life of a registrar the library is initialized once per
    registration and finalized as many times, and every Finalize comes after
    every other call: the calls made are those of the session, none of them a
    Finalize, followed by one Finalize per plugin the registrar owns. *)
Theorem registrar_finalizes_once_per_registration
    (L : Library) (events : list HostEvent) (w : Process L) :
  exists body : list SbrCall,
    let k := length (List.filter is_register events) in
    calls (snd (registrar_lifetime events w)) =
      calls w ++ body ++ repeat CallFinalize k /\
    count_calls is_initialize body = k /\
    count_calls is_finalize body = 0%nat /\
    count_calls is_initialize (body ++ repeat CallFinalize k) =
      count_calls is_finalize (body ++ repeat CallFinalize k).
Proof.
  destruct (host_session_spec events empty_registrar w (fun _ _ => eq_refl))
    as (body & Hc & Hn & Hi & Hf & _).
  unfold registrar_lifetime.
  destruct (host_session events empty_registrar w) as [[resps registrar] w1].
  simpl in *. exists body. cbv zeta. rewrite <- Hn.
  unfold destroy_registrar. rewrite destroy_all_calls, Hc, <- app_assoc.
  split; [reflexivity |]. rewrite Hn. split; [exact Hi |]. split; [exact Hf |].
  rewrite !count_calls_app, Hi, Hf.
  rewrite (count_calls_repeat_same is_finalize) by reflexivity.
  unfold count_calls. clear.
  induction (length (List.filter is_register events)) as [| n IH]; simpl; lia.
Qed.

Example unknown_method_not_implemented :
  fst (HandleMethodCall {| method_name := "open"; arguments := EncInt 3 |} fresh_process)
    = NotImplemented.
Proof. reflexivity. Qed.

End PluginFacts.

Module PixelFormatFacts.
Import PixelFormat.

(** X11: the pixel formats are encoded by the consecutive integers 0 to 5 in
    the order of their declaration, [sbr_PixelFormat_invalid] being 0; reading
    the integer back gives the format again, and an integer outside 0..5 is no
    format. *)
Theorem pixel_format_encoding_round_trip :
  map value all = [0; 1; 2; 3; 4; 5] /\
  (forall f : sbr_PixelFormat, In f all) /\
  (forall f : sbr_PixelFormat, of_value (value f) = Some f) /\
  (forall (z : Z) (f : sbr_PixelFormat), of_value z = Some f -> value f = z) /\
  (forall z : Z, of_value z = None <-> ~ (0 <= z <= 5)) /\
  (forall f g : sbr_PixelFormat, value f = value g -> f = g) /\
  (forall f : sbr_PixelFormat, value f = 0 <-> f = sbr_PixelFormat_invalid).
Proof.
  assert (Hround : forall f : sbr_PixelFormat, of_value (value f) = Some f)
    by (intros f; destruct f; reflexivity).
  repeat apply conj.
  - reflexivity.
  - intros f. destruct f; simpl; tauto.
  - exact Hround.
  - intros z f. unfold of_value.
    repeat match goal with
           | |- context [?a =? ?b] => destruct (Z.eqb_spec a b)
           end; intros [= <-]; subst; reflexivity.
  - intros z. unfold of_value.
    repeat match goal with
           | |- context [?a =? ?b] => destruct (Z.eqb_spec a b)
           end; split; intros H; try discriminate; try lia; try reflexivity.
  - intros f g E. pose proof (Hround f) as Hf. rewrite E, Hround in Hf. congruence.
  - intros f. destruct f; simpl; split; intros H;
      first [reflexivity | lia | discriminate].
Qed.

End PixelFormatFacts.

Module RotationFacts.
Import Rotation.





End RotationFacts.

Module DirectBufferFacts.
Import DirectBuffer.

(** A pointer survives the trip through [jlong]: [static_cast<jlong>] of the
    address, then [static_cast<size_t>] of that [jlong]. *)
Lemma size_t_of_jlong_of_pointer (P : Platform) (p : Z) :
  ptr_bits P = 32 \/ ptr_bits P = 64 ->
  0 <= p < 2 ^ ptr_bits P ->
  to_size_t P (to_jlong p) = p.
Proof.
  intros Hbits Hp. unfold to_size_t, to_jlong, wrap_signed, wrap_unsigned.
  cbv zeta. change (2 ^ (64 - 1)) with 9223372036854775808.
  change (2 ^ 64) with 18446744073709551616.
  destruct Hbits as [Hb | Hb]; rewrite Hb in *.
  - change (2 ^ 32) with 4294967296 in *.
    rewrite (Z.mod_small p 18446744073709551616) by lia.
    destruct (Z.ltb_spec p 9223372036854775808); [| lia].
    apply Z.mod_small. lia.
  - change (2 ^ 64) with 18446744073709551616 in *.
    rewrite (Z.mod_small p 18446744073709551616) by lia.
    destruct (Z.ltb_spec p 9223372036854775808).
    + apply Z.mod_small. lia.
    + replace (p - 18446744073709551616) with (p + (-1) * 18446744073709551616) by lia.
      rewrite Z.mod_add by lia. apply Z.mod_small. lia.
Qed.

Lemma to_jlong_nonzero (p : Z) :
  0 <= p < 2 ^ 64 -> to_jlong p <> 0 -> p <> 0.
Proof. intros _ H ->. apply H. reflexivity. Qed.

(** A size that a direct buffer can have is the same number as a [size_t]. *)
Lemma to_size_t_small (P : Platform) (n : Z) :
  ptr_bits P = 32 \/ ptr_bits P = 64 ->
  0 <= n <= INT_MAX -> to_size_t P n = n.
Proof.
  intros Hbits Hn. unfold to_size_t, wrap_unsigned, INT_MAX in *.
  change (2 ^ 31) with 2147483648 in Hn.
  apply Z.mod_small. destruct Hbits as [Hb | Hb]; rewrite Hb.
  - change (2 ^ 32) with 4294967296. lia.
  - change (2 ^ 64) with 18446744073709551616. lia.
Qed.

Lemma NewDirectByteBuffer_Some (addr cap : Z) (b : DirectByteBuffer) :
  NewDirectByteBuffer addr cap = Some b ->
  address b = addr /\ capacity b = cap /\ 0 <= cap <= INT_MAX.
Proof.
  unfold NewDirectByteBuffer.
  destruct (Z.leb_spec 0 cap), (Z.leb_spec cap INT_MAX); simpl; try discriminate.
  destruct (negb ((addr =? 0) && negb (cap =? 0))); [| discriminate].
  intros [= <-]. simpl. lia.
Qed.

Section View.
Variable b : DirectByteBuffer.

(** Writing a run of bytes through the view succeeds when the run fits the
    capacity and lies in accessible memory; afterwards native memory holds the
    bytes at the addresses of the block, and is unchanged elsewhere. *)
Lemma buffer_put_bytes_spec (xs : list byte) :
  forall (i : Z) (m : gmap Z byte),
    0 <= i -> i + Z.of_nat (length xs) <= capacity b ->
    (forall a, address b + i <= a < address b + i + Z.of_nat (length xs) ->
               is_Some (m !! a)) ->
    exists m',
      buffer_put_bytes b i xs m = Some m' /\
      (forall k : nat, (k < length xs)%nat ->
                       m' !! (address b + i + Z.of_nat k) = xs !! k) /\
      (forall a, ~ (address b + i <= a < address b + i + Z.of_nat (length xs)) ->
                 m' !! a = m !! a).
Proof.
  induction xs as [| x xs IH]; intros i m Hi Hcap Hacc.
  - exists m. simpl. split; [reflexivity |]. split; [| reflexivity].
    intros k Hk. simpl in Hk. lia.
  - simpl length in *. rewrite Nat2Z.inj_succ in *.
    simpl. unfold buffer_put.
    destruct (Z.leb_spec 0 i); [| lia].
    destruct (Z.ltb_spec i (capacity b)); [| lia]. simpl.
    destruct (Hacc (address b + i)) as [y Hy]; [lia |]. rewrite Hy.
    destruct (IH (i + 1) (<[address b + i := x]> m)) as (m' & Hput & Hin & Hout).
    + lia.
    + lia.
    + intros a Ha. rewrite lookup_insert_ne by lia. apply Hacc. lia.
    + exists m'. split; [exact Hput |]. split.
      * intros [| k] Hk.
        -- rewrite Z.add_0_r, Hout by lia. simpl. apply lookup_insert_eq.
        -- replace (address b + i + Z.of_nat (S k))
             with (address b + (i + 1) + Z.of_nat k) by lia.
           simpl. apply Hin. lia.
      * intros a Ha. rewrite Hout by lia. apply lookup_insert_ne. lia.
Qed.

(** Reading through the view returns what native memory holds at the block. *)
Lemma buffer_get_bytes_spec (xs : list byte) :
  forall (i : Z) (m : gmap Z byte),
    0 <= i -> i + Z.of_nat (length xs) <= capacity b ->
    (forall k : nat, (k < length xs)%nat ->
                     m !! (address b + i + Z.of_nat k) = xs !! k) ->
    buffer_get_bytes b i (length xs) m = Some xs.
Proof.
  induction xs as [| x xs IH]; intros i m Hi Hcap Hm; [reflexivity |].
  simpl length in *. rewrite Nat2Z.inj_succ in *. simpl.
  unfold buffer_get. destruct (Z.leb_spec 0 i); [| lia].
  destruct (Z.ltb_spec i (capacity b)); [| lia]. simpl.
  pose proof (Hm 0%nat ltac:(lia)) as Hfirst.
  rewrite Z.add_0_r in Hfirst. simpl in Hfirst.
  rewrite Hfirst, IH; [reflexivity | lia | lia |].
  intros k Hk. replace (address b + (i + 1) + Z.of_nat k)
    with (address b + i + Z.of_nat (S k)) by lia.
  apply (Hm (S k)). lia.
Qed.

Lemma native_read_spec (xs : list byte) :
  forall (a : Z) (m : gmap Z byte),
    (forall k : nat, (k < length xs)%nat -> m !! (a + Z.of_nat k) = xs !! k) ->
    native_read m a (length xs) = Some xs.
Proof.
  induction xs as [| x xs IH]; intros a m Hm; [reflexivity |].
  simpl. pose proof (Hm 0%nat ltac:(simpl; lia)) as Hfirst.
  rewrite Z.add_0_r in Hfirst. simpl in Hfirst.
  rewrite Hfirst, IH; [reflexivity |].
  intros k Hk. replace (a + 1 + Z.of_nat k) with (a + Z.of_nat (S k)) by lia.
  apply (Hm (S k)). simpl. lia.
Qed.

End View.

(** The demonstration platform is one the helpers can rely on. *)
Lemma heap_top_pos (m : gmap Z byte) : 4096 <= heap_top m.
Proof.
  unfold heap_top.
  apply (map_fold_weak_ind (fun acc _ => 4096 <= acc)); [lia |].
  intros a x m' r _ Hr. lia.
Qed.

Lemma map_block_accessible (n : nat) :
  forall (a : Z) (m : gmap Z byte) (x : Z),
    a <= x < a + Z.of_nat n -> is_Some (map_block a n m !! x).
Proof.
  induction n as [| n IH]; intros a m x Hx; [lia |].
  simpl. destruct (Z.eq_dec a x) as [-> | Hne].
  - rewrite lookup_insert_eq. eauto.
  - rewrite lookup_insert_ne by exact Hne. apply IH. lia.
Qed.

Lemma demo_platform_ok : platform_ok demo_platform.
Proof.
  split; [right; reflexivity |].
  intros m n p m'. simpl. unfold demo_malloc.
  change (2 ^ 64) with 18446744073709551616.
  pose proof (heap_top_pos m) as Htop.
  destruct (Z.leb_spec 0 n), (Z.leb_spec n 65536),
    (Z.ltb_spec (heap_top m + n) 18446744073709551616); simpl;
    intros [= <- <-]; (split; [lia |]); intros Hp; try congruence.
  split; [lia |].
  intros a Ha. apply map_block_accessible. lia.
Qed.

(** C6: on a platform whose [malloc] hands out accessible blocks, once N bytes
    have been allocated through the [malloc] helper and the address has been
    wrapped through the [newDirectBuffer] helper, the view starts at the
    allocated block and has capacity N, no byte was copied to make it, and an
    N-byte pattern written through the view is read back identically, through
    the view and from native memory at the address of the block. *)
Theorem direct_buffer_round_trip
    (P : Platform) (m m1 : gmap Z byte) (N ptr : Z) (pattern : list byte)
    (view : DirectByteBuffer) :
  platform_ok P ->
  Z.of_nat (length pattern) = N ->
  Java_jp_espresso3389_pdf_1render_ByteBufferHelper_malloc P m N = (ptr, m1) ->
  ptr <> 0 ->
  Java_jp_espresso3389_pdf_1render_ByteBufferHelper_newDirectBuffer P ptr N = Some view ->
  malloc P m N = (address view, m1) /\
  capacity view = N /\
  exists m2,
    buffer_put_bytes view 0 pattern m1 = Some m2 /\
    buffer_get_bytes view 0 (length pattern) m2 = Some pattern /\
    native_read m2 (address view) (length pattern) = Some pattern /\
    (forall a, ~ (address view <= a < address view + N) -> m2 !! a = m1 !! a).
Proof.
  intros [Hbits Hmalloc] HN Hjm Hnz Hview.
  unfold Java_jp_espresso3389_pdf_1render_ByteBufferHelper_newDirectBuffer in Hview.
  apply NewDirectByteBuffer_Some in Hview. destruct Hview as (Haddr & Hcap & Hrange).
  unfold Java_jp_espresso3389_pdf_1render_ByteBufferHelper_malloc in Hjm.
  rewrite (to_size_t_small P N Hbits Hrange) in Hjm.
  destruct (malloc P m N) as [p m1'] eqn:Em. injection Hjm as Hptr ->.
  destruct (Hmalloc m N p m1 Em) as [Hp Hblock].
  assert (Hp64 : 0 <= p < 2 ^ 64).
  { destruct Hbits as [Hb | Hb]; rewrite Hb in Hp;
      change (2 ^ 32) with 4294967296 in *;
      change (2 ^ 64) with 18446744073709551616 in *; lia. }
  assert (Hpnz : p <> 0) by (apply to_jlong_nonzero; [exact Hp64 | now rewrite Hptr]).
  assert (Ea : address view = p).
  { rewrite Haddr, <- Hptr. apply size_t_of_jlong_of_pointer; assumption. }
  destruct (Hblock Hpnz) as [_ Hacc].
  rewrite Ea, Hcap. split; [reflexivity |]. split; [reflexivity |].
  destruct (buffer_put_bytes_spec view pattern 0 m1) as (m2 & Hput & Hin & Hout).
  - lia.
  - lia.
  - intros a Ha. apply Hacc. lia.
  - exists m2. split; [exact Hput |]. split; [| split].
    + apply buffer_get_bytes_spec; [lia | lia | exact Hin].
    + apply native_read_spec. intros k Hk.
      rewrite <- Ea. specialize (Hin k Hk). now rewrite Z.add_0_r in Hin.
    + intros a Ha. apply Hout. rewrite Ea, HN. lia.
Qed.

Lemma demo_malloc_four :
  Java_jp_espresso3389_pdf_1render_ByteBufferHelper_malloc demo_platform ∅ 4 =
  (4096, demo_memory).
Proof. vm_compute. reflexivity. Qed.

Lemma demo_wrap_four :
  Java_jp_espresso3389_pdf_1render_ByteBufferHelper_newDirectBuffer demo_platform 4096 4 =
  Some demo_view.
Proof. vm_compute. reflexivity. Qed.

(** The round trip on the demonstration platform: four bytes allocated in an
    empty memory, wrapped, written and read back. *)
Lemma direct_buffer_round_trip_demo :
  malloc demo_platform ∅ 4 = (address demo_view, demo_memory) /\
  capacity demo_view = 4 /\
  exists m2,
    buffer_put_bytes demo_view 0 demo_pattern demo_memory = Some m2 /\
    buffer_get_bytes demo_view 0 (length demo_pattern) m2 = Some demo_pattern /\
    native_read m2 (address demo_view) (length demo_pattern) = Some demo_pattern /\
    (forall a, ~ (address demo_view <= a < address demo_view + 4) ->
               m2 !! a = demo_memory !! a).
Proof.
  apply (direct_buffer_round_trip demo_platform ∅ demo_memory 4 4096
           demo_pattern demo_view).
  - exact demo_platform_ok.
  - reflexivity.
  - exact demo_malloc_four.
  - lia.
  - exact demo_wrap_four.
Defined.

(** *** The helpers beyond the round trip *)

Lemma to_jlong_of_pointer (p : Z) :
  0 <= p < 2 ^ 64 ->
  to_jlong p = (if p <? 2 ^ 63 then p else p - 2 ^ 64).
Proof.
  intros Hp. unfold to_jlong, wrap_signed. cbv zeta.
  change (64 - 1) with 63. now rewrite Z.mod_small by exact Hp.
Qed.

Lemma platform_pointer_range (P : Platform) (m m' : gmap Z byte) (n p : Z) :
  platform_ok P -> malloc P m n = (p, m') -> 0 <= p < 2 ^ ptr_bits P /\ 0 <= p < 2 ^ 64.
Proof.
  intros [Hbits Hmalloc] Hm. destruct (Hmalloc m n p m' Hm) as [Hp _].
  split; [exact Hp |].
  destruct Hbits as [Hb | Hb]; rewrite Hb in Hp;
    change (2 ^ 32) with 4294967296 in *;
    change (2 ^ 64) with 18446744073709551616 in *; lia.
Qed.

Lemma demo_platform32_ok : platform_ok demo_platform32.
Proof.
  split; [left; reflexivity |].
  intros m n p m'. simpl. unfold demo_malloc32.
  change (2 ^ 32) with 4294967296.
  pose proof (heap_top_pos m) as Htop.
  destruct (Z.leb_spec 0 n), (Z.leb_spec n 65536),
    (Z.ltb_spec (heap_top m + n) 4294967296); simpl;
    intros [= <- <-]; (split; [lia |]); intros Hp; try congruence.
  split; [lia |].
  intros a Ha. apply map_block_accessible. lia.
Qed.

Lemma demo_malloc32_four :
  Java_jp_espresso3389_pdf_1render_ByteBufferHelper_malloc demo_platform32 ∅ 4 =
  (4096, demo_memory32).
Proof. vm_compute. reflexivity. Qed.

Lemma demo_wrap32_four :
  Java_jp_espresso3389_pdf_1render_ByteBufferHelper_newDirectBuffer demo_platform32 4096 4 =
  Some demo_view.
Proof. vm_compute. reflexivity. Qed.

Lemma demo_wrap32_two :
  Java_jp_espresso3389_pdf_1render_ByteBufferHelper_newDirectBuffer demo_platform32 4096 2 =
  Some {| address := 4096; capacity := 2 |}.
Proof. vm_compute. reflexivity. Qed.

Lemma demo_put32 : buffer_put demo_view 1 x41 demo_memory32 = Some demo_memory32_written.
Proof. vm_compute. reflexivity. Qed.

(** X1: the [jlong] that the [malloc] helper returns names the block that
    [malloc] returned: the [free] helper passes exactly that address to [free],
    and a buffer wrapped from it starts exactly there, on 32-bit and on 64-bit
    platforms. *)
Theorem malloc_result_names_the_block
    (P : Platform) (m m1 : gmap Z byte) (size ptr : Z) :
  platform_ok P ->
  Java_jp_espresso3389_pdf_1render_ByteBufferHelper_malloc P m size = (ptr, m1) ->
  exists p : Z,
    malloc P m (to_size_t P size) = (p, m1) /\
    to_size_t P ptr = p /\
    (forall m' : gmap Z byte,
       Java_jp_espresso3389_pdf_1render_ByteBufferHelper_free P m' ptr = free P m' p) /\
    (forall (n : Z) (b : DirectByteBuffer),
       Java_jp_espresso3389_pdf_1render_ByteBufferHelper_newDirectBuffer P ptr n = Some b ->
       address b = p /\ capacity b = n).
Proof.
  intros Hok Hjm.
  unfold Java_jp_espresso3389_pdf_1render_ByteBufferHelper_malloc in Hjm.
  destruct (malloc P m (to_size_t P size)) as [p m1'] eqn:Em.
  injection Hjm as <- <-.
  destruct (platform_pointer_range P m m1' _ p Hok Em) as [Hp _].
  assert (Eptr : to_size_t P (to_jlong p) = p)
    by (apply size_t_of_jlong_of_pointer; [apply Hok | exact Hp]).
  exists p. split; [reflexivity |]. split; [exact Eptr |]. split.
  - intros m'. unfold Java_jp_espresso3389_pdf_1render_ByteBufferHelper_free.
    now rewrite Eptr.
  - intros n b Hb.
    unfold Java_jp_espresso3389_pdf_1render_ByteBufferHelper_newDirectBuffer in Hb.
    apply NewDirectByteBuffer_Some in Hb. destruct Hb as (Ha & Hc & _).
    rewrite Eptr in Ha. auto.
Qed.

Lemma malloc_result_names_the_block_demo :
  exists p : Z,
    malloc demo_platform32 ∅ (to_size_t demo_platform32 4) = (p, demo_memory32) /\
    to_size_t demo_platform32 4096 = p /\
    (forall m' : gmap Z byte,
       Java_jp_espresso3389_pdf_1render_ByteBufferHelper_free demo_platform32 m' 4096 =
       free demo_platform32 m' p) /\
    (forall (n : Z) (b : DirectByteBuffer),
       Java_jp_espresso3389_pdf_1render_ByteBufferHelper_newDirectBuffer demo_platform32 4096 n
         = Some b ->
       address b = p /\ capacity b = n).
Proof.
  apply (malloc_result_names_the_block demo_platform32 ∅ demo_memory32 4 4096).
  - exact demo_platform32_ok.
  - exact demo_malloc32_four.
Defined.

(** X2: the [jlong] that the [malloc] helper returns is 0 exactly when [malloc]
    returned null; it is the address itself below 2^63 and the address minus
    2^64 (a negative number) from 2^63 on. *)
Theorem malloc_result_zero_iff_null (P : Platform) (m : gmap Z byte) (size : Z) :
  platform_ok P ->
  let p := fst (malloc P m (to_size_t P size)) in
  let r := fst (Java_jp_espresso3389_pdf_1render_ByteBufferHelper_malloc P m size) in
  (r = 0 <-> p = 0) /\
  - 2 ^ 63 <= r < 2 ^ 63 /\
  (p < 2 ^ 63 -> r = p) /\
  (2 ^ 63 <= p -> r = p - 2 ^ 64 /\ r < 0).
Proof.
  intros Hok. cbv zeta.
  unfold Java_jp_espresso3389_pdf_1render_ByteBufferHelper_malloc.
  destruct (malloc P m (to_size_t P size)) as [p m1] eqn:Em. simpl.
  destruct (platform_pointer_range P m m1 _ p Hok Em) as [_ Hp].
  rewrite (to_jlong_of_pointer p Hp).
  change (2 ^ 63) with 9223372036854775808 in *.
  change (2 ^ 64) with 18446744073709551616 in *.
  destruct (Z.ltb_spec p 9223372036854775808); repeat split; intros; lia.
Qed.

Lemma malloc_result_zero_iff_null_demo :
  let p := fst (malloc demo_platform ∅ (to_size_t demo_platform 70000)) in
  let r := fst (Java_jp_espresso3389_pdf_1render_ByteBufferHelper_malloc
                  demo_platform ∅ 70000) in
  (r = 0 <-> p = 0) /\
  - 2 ^ 63 <= r < 2 ^ 63 /\
  (p < 2 ^ 63 -> r = p) /\
  (2 ^ 63 <= p -> r = p - 2 ^ 64 /\ r < 0).
Proof.
  apply (malloc_result_zero_iff_null demo_platform ∅ 70000).
  exact demo_platform_ok.
Defined.

(** X3: the [malloc] helper asks [malloc] for its [jlong] size converted to
    [size_t], w bits wide: a number from 0 to 2^w - 1, which is the size itself
    when the size is in that range and the size plus 2^w when the size is from
    -2^w to -1 (on a 64-bit platform: every negative [jlong]); sizes that
    differ by a multiple of 2^w make the same request, so that on a 32-bit
    platform a size of 2^32 + n allocates n bytes. *)
Theorem malloc_request_is_size_modulo_word (P : Platform) (m : gmap Z byte) (size : Z) :
  platform_ok P ->
  let n := to_size_t P size in
  Java_jp_espresso3389_pdf_1render_ByteBufferHelper_malloc P m size =
    (to_jlong (fst (malloc P m n)), snd (malloc P m n)) /\
  0 <= n < 2 ^ ptr_bits P /\
  (0 <= size < 2 ^ ptr_bits P -> n = size) /\
  (- 2 ^ ptr_bits P <= size < 0 -> n = size + 2 ^ ptr_bits P) /\
  (ptr_bits P = 64 -> - 2 ^ 63 <= size < 0 -> n = size + 2 ^ 64) /\
  (forall k : Z,
     Java_jp_espresso3389_pdf_1render_ByteBufferHelper_malloc P m
       (size + k * 2 ^ ptr_bits P) =
     Java_jp_espresso3389_pdf_1render_ByteBufferHelper_malloc P m size).
Proof.
  intros [Hbits _]. cbv zeta.
  assert (Hpos : 0 < 2 ^ ptr_bits P)
    by (destruct Hbits as [Hb | Hb]; rewrite Hb; reflexivity).
  unfold Java_jp_espresso3389_pdf_1render_ByteBufferHelper_malloc, to_size_t,
    wrap_unsigned.
  repeat apply conj.
  - destruct (malloc P m (size mod 2 ^ ptr_bits P)); reflexivity.
  - apply Z.mod_pos_bound, Hpos.
  - apply Z.mod_pos_bound, Hpos.
  - intros Hs. apply Z.mod_small, Hs.
  - intros Hs.
    replace size with (size + 2 ^ ptr_bits P + (-1) * 2 ^ ptr_bits P) at 1 by lia.
    rewrite Z.mod_add by lia. apply Z.mod_small. lia.
  - intros Hb Hs. rewrite Hb.
    change (2 ^ 63) with 9223372036854775808 in Hs.
    change (2 ^ 64) with 18446744073709551616.
    replace size with (size + 18446744073709551616 + (-1) * 18446744073709551616)
      at 1 by lia.
    rewrite Z.mod_add by lia. apply Z.mod_small. lia.
  - intros k. now rewrite Z.mod_add by lia.
Qed.

Lemma malloc_request_is_size_modulo_word_demo :
  let n := to_size_t demo_platform32 (2 ^ 32 + 4) in
  Java_jp_espresso3389_pdf_1render_ByteBufferHelper_malloc demo_platform32 ∅ (2 ^ 32 + 4) =
    (to_jlong (fst (malloc demo_platform32 ∅ n)), snd (malloc demo_platform32 ∅ n)) /\
  0 <= n < 2 ^ ptr_bits demo_platform32 /\
  (0 <= 2 ^ 32 + 4 < 2 ^ ptr_bits demo_platform32 -> n = 2 ^ 32 + 4) /\
  (- 2 ^ ptr_bits demo_platform32 <= 2 ^ 32 + 4 < 0 ->
   n = 2 ^ 32 + 4 + 2 ^ ptr_bits demo_platform32) /\
  (ptr_bits demo_platform32 = 64 -> - 2 ^ 63 <= 2 ^ 32 + 4 < 0 ->
   n = 2 ^ 32 + 4 + 2 ^ 64) /\
  (forall k : Z,
     Java_jp_espresso3389_pdf_1render_ByteBufferHelper_malloc demo_platform32 ∅
       (2 ^ 32 + 4 + k * 2 ^ ptr_bits demo_platform32) =
     Java_jp_espresso3389_pdf_1render_ByteBufferHelper_malloc demo_platform32 ∅ (2 ^ 32 + 4)).
Proof.
  apply (malloc_request_is_size_modulo_word demo_platform32 ∅ (2 ^ 32 + 4)).
  exact demo_platform32_ok.
Defined.

(** X4: buffers wrapped from the same pointer are views of the same memory: a
    byte put through one of them changes native memory at the address of the
    block plus the index and nowhere else, and is what every other of them
    gets at that index. *)
Theorem views_of_one_pointer_share_memory
    (P : Platform) (ptr n1 n2 i : Z) (b1 b2 : DirectByteBuffer) (x : byte)
    (m m' : gmap Z byte) :
  Java_jp_espresso3389_pdf_1render_ByteBufferHelper_newDirectBuffer P ptr n1 = Some b1 ->
  Java_jp_espresso3389_pdf_1render_ByteBufferHelper_newDirectBuffer P ptr n2 = Some b2 ->
  buffer_put b1 i x m = Some m' ->
  i < n2 ->
  buffer_get b2 m' i = Some x /\
  m' !! (to_size_t P ptr + i) = Some x /\
  (forall a : Z, a <> to_size_t P ptr + i -> m' !! a = m !! a).
Proof.
  intros H1 H2 Hput Hi.
  unfold Java_jp_espresso3389_pdf_1render_ByteBufferHelper_newDirectBuffer in *.
  apply NewDirectByteBuffer_Some in H1, H2.
  destruct H1 as (Ha1 & Hc1 & _). destruct H2 as (Ha2 & Hc2 & _).
  unfold buffer_put in Hput. rewrite Ha1 in Hput.
  destruct (Z.leb_spec 0 i); [| discriminate].
  destruct (i <? capacity b1); [| discriminate]. simpl in Hput.
  destruct (m !! (to_size_t P ptr + i)); [| discriminate].
  injection Hput as <-.
  split; [| split].
  - unfold buffer_get. rewrite Ha2, Hc2.
    destruct (Z.leb_spec 0 i); [| lia]. destruct (Z.ltb_spec i n2); [| lia].
    simpl. apply lookup_insert_eq.
  - apply lookup_insert_eq.
  - intros a Ha. apply lookup_insert_ne. congruence.
Qed.

Lemma views_of_one_pointer_share_memory_demo :
  buffer_get {| address := 4096; capacity := 2 |} demo_memory32_written 1 = Some x41 /\
  demo_memory32_written !! (to_size_t demo_platform32 4096 + 1) = Some x41 /\
  (forall a : Z, a <> to_size_t demo_platform32 4096 + 1 ->
                 demo_memory32_written !! a = demo_memory32 !! a).
Proof.
  apply (views_of_one_pointer_share_memory demo_platform32 4096 4 2 1
           demo_view {| address := 4096; capacity := 2 |} x41
           demo_memory32 demo_memory32_written).
  - exact demo_wrap32_four.
  - exact demo_wrap32_two.
  - exact demo_put32.
  - lia.
Defined.

End DirectBufferFacts.

Module SobarFacts.
Import Rotation Sobar.

(** *** Reading the tables *)

Lemma document_open_Some (reg : Registry) (h : Z) (d : Document) :
  document_open reg h = Some d <-> documents reg !! h = Some d /\ doc_state d = Open.
Proof.
  unfold document_open. destruct (documents reg !! h) as [d' |];
    [| split; [discriminate | intros [? _]; discriminate]].
  destruct (doc_state d') eqn:Es; split.
  - intros [= <-]. auto.
  - intros [[= <-] _]. reflexivity.
  - discriminate.
  - intros [[= <-] Ho]. congruence.
Qed.


(** Closing Document [h] leaves every other Document as it was. *)
Lemma close_document_other (reg : Registry) (h h' : Z) :
  h' <> h ->
  document_open (snd (close_document h reg)) h' = document_open reg h'.
Proof.
  intros Hne. unfold close_document.
  destruct (document_open reg h) as [d |]; simpl; [| reflexivity].
  unfold document_open. simpl. now rewrite lookup_insert_ne by congruence.
Qed.

Lemma close_document_closes (reg : Registry) (h : Z) (d : Document) :
  document_open reg h = Some d ->
  fst (close_document h reg) = Done tt /\
  document_open (snd (close_document h reg)) h = None.
Proof.
  intros Hd. unfold close_document. rewrite Hd. simpl. split; [reflexivity |].
  unfold document_open. simpl. now rewrite lookup_insert_eq.
Qed.

Lemma close_document_not_open (reg : Registry) (h : Z) :
  document_open reg h = None ->
  close_document h reg = (Failed DoubleCloseError, reg).
Proof. intros Hd. unfold close_document. now rewrite Hd. Qed.

(** C1: closing a Document handle that is closed already, or that was never
    opened, is a [DoubleCloseError] and leaves the registry exactly as it was;
    after a handle was closed and then closed again, every other open Document
    answers as before: same page count, same outcome of loading a page, and
    its open Pages are still open. *)
Theorem redundant_document_close_is_an_error :
  (forall (reg : Registry) (h : Z),
     document_open reg h = None ->
     close_document h reg = (Failed DoubleCloseError, reg)) /\
  (forall (reg : Registry) (h : Z),
     documents reg !! h = None ->
     close_document h reg = (Failed DoubleCloseError, reg)) /\
  (forall (reg : Registry) (h : Z),
     is_Some (document_open reg h) ->
     let reg1 := snd (close_document h reg) in
     let reg2 := snd (close_document h reg1) in
     fst (close_document h reg) = Done tt /\
     fst (close_document h reg1) = Failed DoubleCloseError /\
     reg2 = reg1 /\
     forall h' : Z, h' <> h ->
       document_open reg2 h' = document_open reg h' /\
       get_page_count h' reg2 = get_page_count h' reg /\
       (forall i : Z, fst (load_page h' i reg2) = fst (load_page h' i reg)) /\
       (forall (p : Z) (pg : Page),
          page_open reg p = Some pg -> page_document pg = h' ->
          page_open reg2 p = Some pg)).
Proof.
  split; [exact close_document_not_open |]. split.
  - intros reg h Hn. apply close_document_not_open.
    unfold document_open. now rewrite Hn.
  - intros reg h [d Hd] reg1 reg2.
    destruct (close_document_closes reg h d Hd) as [Hok Hclosed].
    assert (Hsecond : close_document h reg1 = (Failed DoubleCloseError, reg1))
      by (apply close_document_not_open; exact Hclosed).
    assert (E2 : reg2 = reg1) by (unfold reg2; now rewrite Hsecond).
    split; [exact Hok |]. split; [now rewrite Hsecond |]. split; [exact E2 |].
    intros h' Hne. rewrite E2.
    assert (Ho : document_open reg1 h' = document_open reg h')
      by (apply close_document_other; exact Hne).
    split; [exact Ho |]. split; [| split].
    + unfold get_page_count. now rewrite Ho.
    + intros i. unfold load_page. rewrite Ho.
      destruct (document_open reg h') as [d' |]; [| reflexivity].
      destruct (0 <=? i); [| reflexivity].
      destruct (doc_pages d' !! Z.to_nat i); [| reflexivity].
      simpl. f_equal.
      unfold reg1, close_document. rewrite Hd. reflexivity.
    + intros p pg Hp Hown. unfold page_open in *.
      assert (Epages : pages reg1 = pages reg)
        by (unfold reg1, close_document; rewrite Hd; reflexivity).
      rewrite Epages. destruct (pages reg !! p) as [pg' |]; [| discriminate].
      destruct (page_state pg'); [| discriminate].
      destruct (document_open reg (page_document pg')) as [d0 |] eqn:Ed0; [| discriminate].
      injection Hp as ->. rewrite Hown in *. rewrite Ho, Ed0. reflexivity.
Qed.

(** C2: the render entry point returns an [int], 0 exactly when the render
    failed; and it fails, returning 0 without invoking the engine and leaving
    the registry as it was, whenever the page handle or the bitmap handle is
    not open or the width or the height of the destination is zero or
    negative. *)
Theorem render_failure_returns_zero
    (E : Engine) (reg : Registry) (page bmp x y width height : Z)
    (rotate : sbr_RotateClockwise) (flags : Z) :
  page_open reg page = None \/ bitmap_open reg bmp = None \/
  width <= 0 \/ height <= 0 ->
  sbr_PdfPageRender E page bmp x y width height rotate flags reg = (0, reg) /\
  (exists e, render_plan page bmp
               {| req_x := x; req_y := y; req_width := width; req_height := height;
                  req_rotate := rotate; req_flags := flags |} reg = Failed e) /\
  (forall (E' : Engine) (reg' : Registry) (page' bmp' x' y' w' h' : Z)
          (rotate' : sbr_RotateClockwise) (flags' : Z),
     let r := fst (sbr_PdfPageRender E' page' bmp' x' y' w' h' rotate' flags' reg') in
     to_int r = r /\
     (r = 0 <->
      exists e, fst (render E' page' bmp'
                       {| req_x := x'; req_y := y'; req_width := w'; req_height := h';
                          req_rotate := rotate'; req_flags := flags' |} reg') = Failed e)).
Proof.
  intros Hbad.
  assert (Hplan : exists e, render_plan page bmp
               {| req_x := x; req_y := y; req_width := width; req_height := height;
                  req_rotate := rotate; req_flags := flags |} reg = Failed e).
  { unfold render_plan. simpl.
    destruct (page_open reg page) as [p |]; [| eauto].
    destruct (bitmap_open reg bmp) as [b |]; [| eauto].
    destruct Hbad as [Hp | [Hb | Hwh]]; try discriminate.
    destruct (Z.ltb_spec 0 width), (Z.ltb_spec 0 height); simpl; eauto; lia. }
  split; [| split; [exact Hplan |]].
  - destruct Hplan as [e He]. unfold sbr_PdfPageRender, render. now rewrite He.
  - intros E' reg' page' bmp' x' y' w' h' rotate' flags' r.
    unfold r, sbr_PdfPageRender.
    destruct (render E' page' bmp' _ reg') as [[u | e] reg''] eqn:Er; simpl.
    + split; [reflexivity |]. split; [discriminate | intros [e He]; discriminate].
    + split; [reflexivity |]. split; eauto.
Qed.

(** A render with a page handle that was never issued. *)
Lemma render_failure_returns_zero_demo :
  sbr_PdfPageRender demo_engine 7 8 0 0 612 792 sbr_RotateClockwise_0 0 empty_registry
    = (0, empty_registry).
Proof.
  apply (render_failure_returns_zero demo_engine empty_registry 7 8 0 0 612 792
           sbr_RotateClockwise_0 0).
  left. reflexivity.
Defined.

(** *** Runs of operations *)

Lemma run_app (E : Engine) (ops1 ops2 : list Op) (reg : Registry) :
  run E (ops1 ++ ops2) reg = run E ops2 (run E ops1 reg).
Proof. unfold run. apply fold_left_app. Qed.

(** An invariant of every step holds after every run. *)
Lemma run_invariant (E : Engine) (I : Registry -> Prop) :
  (forall reg op, I reg -> I (step E reg op)) ->
  forall ops reg, I reg -> I (run E ops reg).
Proof.
  intros Hstep ops. induction ops as [| op ops IH]; intros reg HI; simpl.
  - exact HI.
  - apply IH, Hstep, HI.
Qed.


(** *** The release path of a Bitmap *)












(** *** The release callback of a custom source *)

Lemma source_releases_app (s : nat) (l1 l2 : list Event) :
  source_releases s (l1 ++ l2) = source_releases s l1 ++ source_releases s l2.
Proof. apply List.filter_app. Qed.

Lemma source_releases_snoc_eq (s : nat) (k : ReleaseHook) (evs : list Event) :
  source_releases s (evs ++ [SourceReleased s k]) =
  source_releases s evs ++ [SourceReleased s k].
Proof. rewrite source_releases_app. simpl. now rewrite Nat.eqb_refl. Qed.

Lemma source_releases_snoc_ne (s s0 : nat) (k : ReleaseHook) (evs : list Event) :
  s0 <> s ->
  source_releases s (evs ++ [SourceReleased s0 k]) = source_releases s evs.
Proof.
  intros Hne. rewrite source_releases_app. simpl.
  apply Nat.eqb_neq in Hne. rewrite Hne. apply app_nil_r.
Qed.

Lemma source_releases_snoc_bitmap (s : nat) (b : Z) (path : ReleasePath)
    (evs : list Event) :
  source_releases s (evs ++ [BitmapReleased b path]) = source_releases s evs.
Proof. rewrite source_releases_app. simpl. apply app_nil_r. Qed.

Lemma source_inv_empty : source_inv empty_registry.
Proof.
  unfold source_inv. simpl. repeat apply conj.
  - intros h _. apply lookup_empty.
  - reflexivity.
  - intros h d s hook Hd. rewrite lookup_empty in Hd. discriminate.
  - intros h1 h2 d1 d2 s k1 k2 Hd. rewrite lookup_empty in Hd. discriminate.
  - intros s Hs. lia.
Qed.

(** An operation that leaves the Documents, the accepted sources and the source
    releases of the log as they were keeps the invariant. *)
Lemma source_inv_documents_untouched (reg reg' : Registry) :
  documents reg' = documents reg ->
  next_source reg' = next_source reg ->
  next_handle reg <= next_handle reg' ->
  (forall s, source_releases s (events reg') = source_releases s (events reg)) ->
  source_inv reg -> source_inv reg'.
Proof.
  intros Ed Es Hh He (H1 & H2 & H3 & H4 & H5). unfold source_inv.
  rewrite Ed, Es. repeat apply conj.
  - intros h Hh'. apply H1. lia.
  - intros s Hs. rewrite He. apply H2, Hs.
  - intros h d s hook Hd Hsrc. rewrite He. apply (H3 h); assumption.
  - exact H4.
  - intros s Hs. rewrite He. apply H5, Hs.
Qed.

(** Registering a Document for a new handle; [src] is the source it owns, if
    any, which must be the source accepted last. *)
Lemma source_inv_register (reg : Registry) (pgs : list PageModel)
    (src : option (nat * ReleaseHook)) (accepted : nat) :
  source_inv reg ->
  match src with
  | Some (s, _) => s = next_source reg /\ accepted = S s
  | None => accepted = next_source reg
  end ->
  source_inv
    {| documents := <[next_handle reg := {| doc_state := Open; doc_pages := pgs;
                                            doc_source := src |}]> (documents reg);
       pages := pages reg; bitmaps := bitmaps reg;
       next_handle := next_handle reg + 1; next_source := accepted;
       events := events reg |}.
Proof.
  intros (H1 & H2 & H3 & H4 & H5) Hsrc. unfold source_inv. simpl.
  assert (Hold : forall h d, documents reg !! h = Some d -> h <> next_handle reg).
  { intros h d Hd ->. rewrite H1 in Hd by lia. discriminate. }
  assert (Hacc : (next_source reg <= accepted)%nat).
  { destruct src as [[s k] |]; [destruct Hsrc as [-> ->] | subst]; lia. }
  repeat apply conj.
  - intros h Hh. rewrite lookup_insert_ne by lia. apply H1. lia.
  - intros s Hs. apply H2. lia.
  - intros h d s hook Hd Hds.
    destruct (Z.eq_dec (next_handle reg) h) as [<- | Hne].
    + rewrite lookup_insert_eq in Hd. injection Hd as <-. simpl in Hds. subst src.
      destruct Hsrc as [-> ->]. split; [lia |]. simpl. apply H2. lia.
    + rewrite lookup_insert_ne in Hd by exact Hne.
      destruct (H3 h d s hook Hd Hds) as [Hlt Hrel]. split; [lia | exact Hrel].
  - intros h1 h2 d1 d2 s k1 k2 Hd1 Hd2 Hs1 Hs2.
    destruct (Z.eq_dec (next_handle reg) h1) as [<- | Hne1];
      destruct (Z.eq_dec (next_handle reg) h2) as [<- | Hne2]; [reflexivity | | |].
    + rewrite lookup_insert_eq in Hd1. injection Hd1 as <-. simpl in Hs1. subst src.
      rewrite lookup_insert_ne in Hd2 by exact Hne2.
      destruct Hsrc as [-> _]. destruct (H3 h2 d2 _ k2 Hd2 Hs2) as [Hlt _]. lia.
    + rewrite lookup_insert_eq in Hd2. injection Hd2 as <-. simpl in Hs2. subst src.
      rewrite lookup_insert_ne in Hd1 by exact Hne1.
      destruct Hsrc as [-> _]. destruct (H3 h1 d1 _ k1 Hd1 Hs1) as [Hlt _]. lia.
    + rewrite lookup_insert_ne in Hd1 by exact Hne1.
      rewrite lookup_insert_ne in Hd2 by exact Hne2.
      exact (H4 h1 h2 d1 d2 s k1 k2 Hd1 Hd2 Hs1 Hs2).
  - intros s Hs.
    destruct (Nat.lt_ge_cases s (next_source reg)) as [Hlt | Hge].
    + destruct (H5 s Hlt) as [(h & d & hook & Hd & Hds) | Hlen]; [left | right; exact Hlen].
      exists h, d, hook. split; [| exact Hds].
      rewrite lookup_insert_ne; [exact Hd |]. intros E. exact (Hold h d Hd (eq_sym E)).
    + left. destruct src as [[s0 k] |]; [destruct Hsrc as [-> ->] | subst; lia].
      assert (s = next_source reg) by lia. subst s.
      eexists _, _, k. rewrite lookup_insert_eq. split; reflexivity.
Qed.

(** A source accepted and released at once, because construction failed. *)
Lemma source_inv_rejected (reg : Registry) (k : ReleaseHook) :
  source_inv reg ->
  source_inv
    {| documents := documents reg; pages := pages reg; bitmaps := bitmaps reg;
       next_handle := next_handle reg; next_source := S (next_source reg);
       events := events reg ++ [SourceReleased (next_source reg) k] |}.
Proof.
  intros (H1 & H2 & H3 & H4 & H5). unfold source_inv. simpl. repeat apply conj.
  - exact H1.
  - intros s Hs. rewrite source_releases_snoc_ne by lia. apply H2. lia.
  - intros h d s hook Hd Hds. destruct (H3 h d s hook Hd Hds) as [Hlt Hrel].
    split; [lia |]. rewrite source_releases_snoc_ne by lia. exact Hrel.
  - exact H4.
  - intros s Hs. destruct (Nat.lt_ge_cases s (next_source reg)) as [Hlt | Hge].
    + rewrite source_releases_snoc_ne by lia. apply H5, Hlt.
    + assert (s = next_source reg) by lia. subst s. right.
      rewrite source_releases_snoc_eq, H2 by lia. reflexivity.
Qed.

(** Closing an open Document. *)
Lemma source_inv_close (reg : Registry) (h0 : Z) (d0 : Document) :
  source_inv reg ->
  documents reg !! h0 = Some d0 -> doc_state d0 = Open ->
  source_inv
    {| documents := <[h0 := {| doc_state := Closed; doc_pages := doc_pages d0;
                               doc_source := doc_source d0 |}]> (documents reg);
       pages := pages reg; bitmaps := bitmaps reg;
       next_handle := next_handle reg; next_source := next_source reg;
       events := events reg ++ source_release_events d0 |}.
Proof.
  intros (H1 & H2 & H3 & H4 & H5) Hd0 Hopen. unfold source_inv. simpl.
  (* what the close appends to the releases of source [s] *)
  assert (Hrel : forall s,
            source_releases s (events reg ++ source_release_events d0) =
            source_releases s (events reg) ++
            match doc_source d0 with
            | Some (s0, k0) => if Nat.eqb s0 s then [SourceReleased s0 k0] else []
            | None => []
            end).
  { intros s. rewrite source_releases_app. f_equal.
    unfold source_release_events. destruct (doc_source d0) as [[s0 k0] |]; reflexivity. }
  (* an entry of the new table has the source of the entry of the old one *)
  assert (Hentry : forall h d,
            <[h0 := {| doc_state := Closed; doc_pages := doc_pages d0;
                       doc_source := doc_source d0 |}]> (documents reg) !! h = Some d ->
            exists d', documents reg !! h = Some d' /\ doc_source d' = doc_source d /\
                       (h <> h0 -> d' = d) /\ (h = h0 -> d' = d0 /\ doc_state d = Closed)).
  { intros h d Hd. destruct (Z.eq_dec h0 h) as [<- | Hne].
    - rewrite lookup_insert_eq in Hd. injection Hd as <-.
      exists d0. simpl. repeat split; auto; congruence.
    - rewrite lookup_insert_ne in Hd by exact Hne.
      exists d. repeat split; auto; congruence. }
  repeat apply conj.
  - intros h Hh. rewrite lookup_insert_ne; [apply H1, Hh |].
    intros ->. rewrite H1 in Hd0 by exact Hh. discriminate.
  - intros s Hs. rewrite Hrel, H2 by exact Hs. simpl.
    destruct (doc_source d0) as [[s0 k0] |] eqn:Es0; [| reflexivity].
    destruct (H3 h0 d0 s0 k0 Hd0 Es0) as [Hlt _].
    destruct (Nat.eqb_spec s0 s); [lia | reflexivity].
  - intros h d s hook Hd Hds.
    destruct (Hentry h d Hd) as (d' & Hd' & Esrc & Hother & Hsame).
    rewrite <- Esrc in Hds.
    destruct (H3 h d' s hook Hd' Hds) as [Hlt Hold]. split; [exact Hlt |].
    rewrite Hrel, Hold.
    destruct (Z.eq_dec h h0) as [-> | Hne].
    + destruct (Hsame eq_refl) as [-> Hcl]. rewrite Hcl, Hopen, Hds.
      rewrite Nat.eqb_refl. reflexivity.
    + rewrite (Hother Hne) in *.
      destruct (doc_source d0) as [[s0 k0] |] eqn:Es0; [| apply app_nil_r].
      destruct (Nat.eqb_spec s0 s) as [-> | Hs]; [| apply app_nil_r].
      exfalso. apply Hne. exact (H4 h h0 d d0 s hook k0 Hd' Hd0 Hds Es0).
  - intros h1 h2 d1 d2 s k1 k2 Hd1 Hd2 Hs1 Hs2.
    destruct (Hentry h1 d1 Hd1) as (d1' & Hd1' & E1 & _).
    destruct (Hentry h2 d2 Hd2) as (d2' & Hd2' & E2 & _).
    rewrite <- E1 in Hs1. rewrite <- E2 in Hs2.
    exact (H4 h1 h2 d1' d2' s k1 k2 Hd1' Hd2' Hs1 Hs2).
  - intros s Hs. destruct (H5 s Hs) as [(h & d & hook & Hd & Hds) | Hlen].
    + left. destruct (Z.eq_dec h0 h) as [<- | Hne].
      * eexists h0, _, hook. rewrite lookup_insert_eq. split; [reflexivity |].
        simpl. congruence.
      * exists h, d, hook. rewrite lookup_insert_ne by exact Hne. auto.
    + right. rewrite Hrel.
      destruct (doc_source d0) as [[s0 k0] |] eqn:Es0; [| now rewrite app_nil_r].
      destruct (Nat.eqb_spec s0 s) as [-> | Hne]; [| now rewrite app_nil_r].
      destruct (H3 h0 d0 s k0 Hd0 Es0) as [_ Hnone].
      rewrite Hopen in Hnone. rewrite Hnone in Hlen. discriminate.
Qed.

Lemma source_inv_step (E : Engine) (reg : Registry) (op : Op) :
  source_inv reg -> source_inv (step E reg op).
Proof.
  intros Hinv. destruct op; simpl.
  - unfold open_memory, register_document.
    destruct (engine_load E _ _ password) as [pgs |]; simpl; [| exact Hinv].
    apply (source_inv_register reg pgs None (next_source reg) Hinv). reflexivity.
  - unfold open_custom, register_document.
    destruct (engine_load E _ _ password) as [pgs |]; simpl.
    + apply (source_inv_register reg pgs (Some (next_source reg, source_hook src))
               (S (next_source reg)) Hinv).
      split; reflexivity.
    + apply source_inv_rejected, Hinv.
  - unfold close_document. destruct (document_open reg doc) as [d |] eqn:Hd; simpl;
      [| exact Hinv].
    apply document_open_Some in Hd. destruct Hd as [Hd Ho].
    apply source_inv_close; assumption.
  - unfold load_page. destruct (document_open reg doc) as [d |]; simpl; [| exact Hinv].
    destruct (0 <=? pageIndex); [| exact Hinv].
    destruct (doc_pages d !! Z.to_nat pageIndex); simpl; [| exact Hinv].
    apply (source_inv_documents_untouched reg); simpl; auto; lia.
  - unfold close_page. destruct (pages reg !! page) as [p |]; [| exact Hinv].
    destruct (page_state p); simpl; [| exact Hinv].
    apply (source_inv_documents_untouched reg); simpl; auto; lia.
  - apply (source_inv_documents_untouched reg); simpl; auto; lia.
  - unfold bitmap_release. destruct (bitmap_open reg bmp) as [b |]; simpl; [| exact Hinv].
    apply (source_inv_documents_untouched reg); simpl; auto; try lia.
    intros s. apply source_releases_snoc_bitmap.
  - unfold render. destruct (render_plan page bmp req reg) as [[[pm b] r] | e]; simpl;
      [| exact Hinv].
    destruct (engine_rasterize E pm b r); simpl; [| exact Hinv].
    apply (source_inv_documents_untouched reg); simpl; auto; lia.
Qed.

Lemma source_inv_run (E : Engine) (ops : list Op) (reg : Registry) :
  source_inv reg -> source_inv (run E ops reg).
Proof. apply run_invariant. intros r op. apply source_inv_step. Qed.

(** The log only grows. *)
Lemma step_events (E : Engine) (reg : Registry) (op : Op) :
  exists evs, events (step E reg op) = events reg ++ evs.
Proof.
  assert (Hsame : exists evs, events reg = events reg ++ evs)
    by (exists []; now rewrite app_nil_r).
  destruct op; simpl.
  - unfold open_memory. destruct (engine_load E _ _ password); exact Hsame.
  - unfold open_custom. destruct (engine_load E _ _ password); simpl; eauto.
  - unfold close_document. destruct (document_open reg doc); simpl; eauto.
  - unfold load_page. destruct (document_open reg doc) as [d |]; [| exact Hsame].
    destruct (0 <=? pageIndex); [| exact Hsame].
    destruct (doc_pages d !! Z.to_nat pageIndex); exact Hsame.
  - unfold close_page. destruct (pages reg !! page) as [p |]; [| exact Hsame].
    destruct (page_state p); exact Hsame.
  - exact Hsame.
  - unfold bitmap_release. destruct (bitmap_open reg bmp); simpl; eauto.
  - unfold render. destruct (render_plan page bmp req reg) as [[[pm b] r] | e];
      [| exact Hsame].
    destruct (engine_rasterize E pm b r); exact Hsame.
Qed.

Lemma run_events (E : Engine) (ops : list Op) :
  forall reg, exists evs, events (run E ops reg) = events reg ++ evs.
Proof.
  induction ops as [| op ops IH]; intros reg; simpl.
  - exists []. now rewrite app_nil_r.
  - destruct (step_events E reg op) as [e1 H1].
    destruct (IH (step E reg op)) as [e2 H2].
    exists (e1 ++ e2). now rewrite H2, H1, app_assoc.
Qed.

(** The release callback of a source is never invoked twice. *)
Lemma source_releases_le1 (reg : Registry) (s : nat) :
  source_inv reg -> (length (source_releases s (events reg)) <= 1)%nat.
Proof.
  intros (_ & H2 & H3 & _ & H5).
  destruct (Nat.lt_ge_cases s (next_source reg)) as [Hlt | Hge].
  - destruct (H5 s Hlt) as [(h & d & hook & Hd & Hds) | Hlen]; [| lia].
    destruct (H3 h d s hook Hd Hds) as [_ ->]. destruct (doc_state d); simpl; lia.
  - rewrite H2 by exact Hge. simpl. lia.
Qed.

Lemma source_released_stays (E : Engine) (reg : Registry) (s : nat) (e : Event) :
  source_inv reg -> source_releases s (events reg) = [e] ->
  forall ops, source_releases s (events (run E ops reg)) = [e].
Proof.
  intros Hinv Hrel ops.
  pose proof (source_releases_le1 (run E ops reg) s (source_inv_run E ops reg Hinv)) as Hle.
  destruct (run_events E ops reg) as [evs Hev].
  rewrite Hev, source_releases_app, Hrel in *.
  destruct (source_releases s evs); [reflexivity | simpl in Hle; lia].
Qed.

(** A Document's entry stays, with the source it was opened against. *)
Lemma document_entry_step (E : Engine) (reg : Registry) (op : Op) (h : Z) (d : Document) :
  source_inv reg -> documents reg !! h = Some d ->
  exists d', documents (step E reg op) !! h = Some d' /\ doc_source d' = doc_source d.
Proof.
  intros (H1 & _) Hd.
  assert (Hsame : exists d', documents reg !! h = Some d' /\ doc_source d' = doc_source d)
    by (exists d; auto).
  assert (Hne : next_handle reg <> h)
    by (intros <-; rewrite H1 in Hd by lia; discriminate).
  destruct op; simpl.
  - unfold open_memory, register_document.
    destruct (engine_load E _ _ password); simpl; [| exact Hsame].
    rewrite lookup_insert_ne by exact Hne. exact Hsame.
  - unfold open_custom, register_document.
    destruct (engine_load E _ _ password); simpl; [| exact Hsame].
    rewrite lookup_insert_ne by exact Hne. exact Hsame.
  - unfold close_document. destruct (document_open reg doc) as [d0 |] eqn:Hd0; simpl;
      [| exact Hsame].
    apply document_open_Some in Hd0. destruct Hd0 as [Hd0 _].
    destruct (Z.eq_dec doc h) as [-> | Hdoc].
    + rewrite lookup_insert_eq. eexists. split; [reflexivity |]. simpl. congruence.
    + rewrite lookup_insert_ne by exact Hdoc. exact Hsame.
  - unfold load_page. destruct (document_open reg doc) as [d0 |]; [| exact Hsame].
    destruct (0 <=? pageIndex); [| exact Hsame].
    destruct (doc_pages d0 !! Z.to_nat pageIndex); exact Hsame.
  - unfold close_page. destruct (pages reg !! page) as [p |]; [| exact Hsame].
    destruct (page_state p); exact Hsame.
  - exact Hsame.
  - unfold bitmap_release. destruct (bitmap_open reg bmp); exact Hsame.
  - unfold render. destruct (render_plan page bmp req reg) as [[[pm b] r] | e];
      [| exact Hsame].
    destruct (engine_rasterize E pm b r); exact Hsame.
Qed.

Lemma document_entry_run (E : Engine) (ops : list Op) :
  forall (reg : Registry) (h : Z) (d : Document),
    source_inv reg -> documents reg !! h = Some d ->
    exists d', documents (run E ops reg) !! h = Some d' /\ doc_source d' = doc_source d.
Proof.
  induction ops as [| op ops IH]; intros reg h d Hinv Hd; simpl.
  - exists d. auto.
  - destruct (document_entry_step E reg op h d Hinv Hd) as (d1 & Hd1 & Hs1).
    destruct (IH (step E reg op) h d1 (source_inv_step E reg op Hinv) Hd1)
      as (d2 & Hd2 & Hs2).
    exists d2. split; [exact Hd2 | congruence].
Qed.

(** The two outcomes of [open_custom]. *)
Lemma open_custom_cases (E : Engine) (src : CustomSource) (password : option string)
    (reg : Registry) :
  match open_custom E src password reg with
  | (Done h, reg') =>
      h = next_handle reg /\ events reg' = events reg /\
      exists d, documents reg' !! h = Some d /\ doc_state d = Open /\
                doc_source d = Some (next_source reg, source_hook src)
  | (Failed e, reg') =>
      e = OpenError /\ documents reg' = documents reg /\
      events reg' = events reg ++ [SourceReleased (next_source reg) (source_hook src)]
  end.
Proof.
  unfold open_custom, register_document.
  destruct (engine_load E (src_read src) (src_size src) password) as [pgs |]; simpl.
  - split; [reflexivity |]. split; [reflexivity |].
    eexists. rewrite lookup_insert_eq. split; [reflexivity |]. simpl. auto.
  - auto.
Qed.

(** C4: the release callback of a custom source accepted by [open_custom] is
    invoked exactly once, with the source's context.  If construction of the
    document fails it is invoked at once (no handle is returned, nothing is
    registered) and never again; otherwise it is not invoked while the Document
    is open, it is invoked by the close of the Document, and never again.  The
    read callback and the size play no part.  In every run every accepted
    source has been released exactly once or is owned by an open Document. *)
Theorem custom_source_released_exactly_once
    (E : Engine) (ops0 : list Op) (src : CustomSource) (password : option string) :
  let reg0 := run E ops0 empty_registry in
  let s := next_source reg0 in
  let reg1 := snd (open_custom E src password reg0) in
  let released := SourceReleased s (source_hook src) in
  source_releases s (events reg0) = [] /\
  match fst (open_custom E src password reg0) with
  | Failed _ =>
      documents reg1 = documents reg0 /\
      events reg1 = events reg0 ++ [released] /\
      forall ops, source_releases s (events (run E ops reg1)) = [released]
  | Done h =>
      source_releases s (events reg1) = [] /\
      forall ops1,
        let reg2 := run E ops1 reg1 in
        (is_Some (document_open reg2 h) -> source_releases s (events reg2) = []) /\
        (document_open reg2 h = None -> source_releases s (events reg2) = [released]) /\
        forall ops2,
          source_releases s (events (run E ops2 (snd (close_document h reg2))))
            = [released]
  end /\
  (forall (ops : list Op) (s' : nat),
     let reg := run E ops empty_registry in
     (length (source_releases s' (events reg)) <= 1)%nat /\
     ((s' < next_source reg)%nat ->
      length (source_releases s' (events reg)) = 1%nat \/
      exists h, owns_source reg h s')).
Proof.
  intros reg0. cbv zeta.
  assert (Hinv0 : source_inv reg0) by (apply source_inv_run, source_inv_empty).
  assert (Hinv1 : source_inv (snd (open_custom E src password reg0)))
    by (apply (source_inv_step E reg0 (OpOpenCustom src password) Hinv0)).
  assert (Hnone0 : source_releases (next_source reg0) (events reg0) = []).
  { destruct Hinv0 as (_ & H2 & _). apply H2. lia. }
  pose proof (open_custom_cases E src password reg0) as Hc.
  split; [exact Hnone0 |]. split.
  - destruct (open_custom E src password reg0) as [[h | e] r1]; simpl in *.
    + (* the Document owns the source *)
      destruct Hc as (_ & Hev & d & Hd & Hopen & Hsrc).
      split; [rewrite Hev; exact Hnone0 |]. intros ops1.
      assert (Hinv2 : source_inv (run E ops1 r1)) by (apply source_inv_run, Hinv1).
      destruct (document_entry_run E ops1 r1 h d Hinv1 Hd) as (d2 & Hd2 & Hs2).
      rewrite Hsrc in Hs2.
      pose proof Hinv2 as (_ & _ & H3 & _).
      destruct (H3 h d2 _ _ Hd2 Hs2) as [_ Hrel2].
      split; [| split].
      * intros [d' Hd']. apply document_open_Some in Hd'. destruct Hd' as [Hd' Ho].
        rewrite Hd2 in Hd'. injection Hd' as <-. now rewrite Ho in Hrel2.
      * intros Hclosed. unfold document_open in Hclosed. rewrite Hd2 in Hclosed.
        destruct (doc_state d2); [discriminate | exact Hrel2].
      * intros ops2. apply source_released_stays.
        { apply (source_inv_step E (run E ops1 r1) (OpCloseDocument h) Hinv2). }
        unfold close_document, document_open. rewrite Hd2.
        destruct (doc_state d2) eqn:Hst; simpl.
        -- unfold source_release_events. rewrite Hs2.
           rewrite source_releases_snoc_eq, Hrel2. reflexivity.
        -- exact Hrel2.
    + (* construction failed *)
      destruct Hc as (_ & Hdocs & Hev).
      split; [exact Hdocs |]. split; [exact Hev |]. intros ops.
      apply source_released_stays; [exact Hinv1 |].
      rewrite Hev, source_releases_snoc_eq, Hnone0. reflexivity.
  - intros ops s'.
    assert (Hinv : source_inv (run E ops empty_registry))
      by (apply source_inv_run, source_inv_empty).
    split; [apply source_releases_le1, Hinv |].
    intros Hlt. destruct Hinv as (_ & _ & H3 & _ & H5).
    destruct (H5 s' Hlt) as [(h & d & hook & Hd & Hds) | Hlen]; [| left; exact Hlen].
    destruct (H3 h d s' hook Hd Hds) as [_ Hrel].
    destruct (doc_state d) eqn:Hst.
    + right. exists h, d, hook. split; [| exact Hds].
      apply document_open_Some. auto.
    + left. now rewrite Hrel.
Qed.

(** *** The registry at work *)

(** A source the engine cannot parse is released at once; a source it can parse
    is released by the close of its Document, and a second close adds nothing. *)
Example custom_sources_run :
  events (run demo_engine
            [OpOpenCustom demo_bad_source None; OpOpenCustom demo_source None;
             OpCloseDocument 1; OpCloseDocument 1]
            empty_registry) =
  [SourceReleased 0 {| hook_callback := 7; hook_context := 11 |};
   SourceReleased 1 {| hook_callback := 7; hook_context := 9 |}].
Proof. vm_compute. reflexivity. Qed.

(** Open a one-page file, load page 0, render it into a 2x2 bitmap; a render
    of zero width fails; after the Document is closed the page is invalid and
    a second close is a [DoubleCloseError]. *)
Example open_render_close_run :
  let reg := run demo_engine
               [OpOpenMemory demo_file None; OpLoadPage 1 0;
                OpBitmapCreate 2 2 PixelFormat.sbr_PixelFormat_bgra 8 0 0 0]
               empty_registry in
  get_page_count 1 reg = Done 1 /\
  fst (sbr_PdfPageRender demo_engine 2 3 0 0 2 2 sbr_RotateClockwise_0 0 reg) = 1 /\
  fst (sbr_PdfPageRender demo_engine 2 3 0 0 0 2 sbr_RotateClockwise_0 0 reg) = 0 /\
  get_page_rotation 2 (run demo_engine [OpCloseDocument 1] reg)
    = Failed InvalidHandleError /\
  fst (close_document 1 (run demo_engine [OpCloseDocument 1] reg))
    = Failed DoubleCloseError.
Proof. vm_compute. repeat split. Qed.

End SobarFacts.
